(** * Event_Diary: the document question-answering pipeline of [backend/ai_ask.py]

    A shallow embedding of the retrieval-augmented answering code
    (document loading, chunking, index construction, the start-once guard
    of the background indexer, conversation memory, prompt assembly and the
    call of the generation backend), with the properties of its design
    document settled against it. *)

From Stdlib Require Import ZArith NArith Ascii String DecimalString DecimalNat Lia.
From stdpp Require Import base option list gmap.

Open Scope Z_scope.

(** ** Python strings

    A Python [str] is a sequence of Unicode code points; [len] and slicing
    count code points.  The literals of the source are written here as UTF-8
    text and decoded once. *)

Abbreviation pystr := (list N).

Fixpoint bytes_of_string (s : string) : list N :=
  match s with
  | EmptyString => []
  | String a rest => N_of_ascii a :: bytes_of_string rest
  end.

(** Decoder for the UTF-8 text of the literals (well-formed input only). *)
Fixpoint utf8_decode (bs : list N) : pystr :=
  match bs with
  | [] => []
  | b0 :: r0 =>
    if (b0 <? 128)%N then b0 :: utf8_decode r0
    else match r0 with
    | [] => []
    | b1 :: r1 =>
      if (b0 <? 224)%N then
        ((b0 - 192) * 64 + (b1 - 128))%N :: utf8_decode r1
      else match r1 with
      | [] => []
      | b2 :: r2 =>
        if (b0 <? 240)%N then
          ((b0 - 224) * 4096 + (b1 - 128) * 64 + (b2 - 128))%N :: utf8_decode r2
        else match r2 with
        | [] => []
        | b3 :: r3 =>
          ((b0 - 240) * 262144 + (b1 - 128) * 4096
           + (b2 - 128) * 64 + (b3 - 128))%N :: utf8_decode r3
        end
      end
    end
  end.

Definition lit (s : string) : pystr := utf8_decode (bytes_of_string s).

(** The double quote character, U+0022. *)
Definition dquote : pystr := [34%N].

(** [len(s)] as a Python integer. *)
Definition len {A} (l : list A) : Z := Z.of_nat (length l).

(** Normalisation of one slice bound against the length: a negative bound
    counts from the end, and every bound is clamped into [0, len]. *)
Definition py_bound (n i : Z) : Z :=
  if i <? 0 then Z.max 0 (i + n) else Z.min i n.

(** [l[start:stop]]; an omitted bound is [None]. *)
Definition py_slice {A} (l : list A) (start stop : option Z) : list A :=
  let n := len l in
  let lo := match start with Some i => py_bound n i | None => 0 end in
  let hi := match stop with Some j => py_bound n j | None => n end in
  take (Z.to_nat (hi - lo)) (drop (Z.to_nat lo) l).

(** [sep.join(parts)]. *)
Fixpoint py_join {A} (sep : list A) (parts : list (list A)) : list A :=
  match parts with
  | [] => []
  | [p] => p
  | p :: rest => p ++ sep ++ py_join sep rest
  end.

(** ** Chunker: [chunk_text]

    <<
    def chunk_text(text, chunk_size=500, overlap=50):
        chunks, start = [], 0
        while start < len(text):
            end = start + chunk_size
            chunks.append(text[start:end])
            start += chunk_size - overlap
        return chunks
    >>

    The [while] loop is run with a bound [fuel] on the number of iterations;
    [None] means that the bound was reached with the loop condition still
    true.  The loop condition is tested before the bound, so a loop that
    exits needs no fuel for its last test. *)

Fixpoint chunk_loop (fuel : nat) (text : pystr) (chunk_size overlap : Z)
    (chunks : list pystr) (start : Z) : option (list pystr) :=
  if start <? len text then
    match fuel with
    | O => None
    | S fuel' =>
      let end_ := start + chunk_size in
      chunk_loop fuel' text chunk_size overlap
        (chunks ++ [py_slice text (Some start) (Some end_)])
        (start + (chunk_size - overlap))
    end
  else Some chunks.

Definition chunk_text (fuel : nat) (text : pystr) (chunk_size overlap : Z)
  : option (list pystr) :=
  chunk_loop fuel text chunk_size overlap [] 0.

(** Reading of the design document's phrase for putting the chunks back
    together: the first chunk is kept whole and every later chunk loses its
    first [overlap] characters, [c[overlap:]], before the pieces are
    concatenated. *)
Definition remove_overlap (overlap : Z) (chunks : list pystr) : pystr :=
  match chunks with
  | [] => []
  | c :: cs => c ++ concat (map (fun c' => py_slice c' (Some overlap) None) cs)
  end.

(** The window the loop cuts at offset [start]: [text[start:start+chunk_size]]. *)
Definition window (text : pystr) (chunk_size start : Z) : pystr :=
  py_slice text (Some start) (Some (start + chunk_size)).

(** What the loop of [chunk_text] maintains: [start] is the offset of the
    next window, chunk [i] is the window at offset [i * (chunk_size - overlap)],
    and the chunks so far, put back together, give the text up to the end
    of the last window. *)
Definition windows_inv (text : pystr) (chunk_size overlap : Z)
    (chunks : list pystr) (start : Z) : Prop :=
  start = len chunks * (chunk_size - overlap)
  /\ (forall (i : nat) c, chunks !! i = Some c ->
        Z.of_nat i * (chunk_size - overlap) < len text
        /\ c = window text chunk_size (Z.of_nat i * (chunk_size - overlap)))
  /\ (chunks <> [] ->
        remove_overlap overlap chunks = take (Z.to_nat (start + overlap)) text).

Definition default_chunk_size : Z := 500.
Definition default_overlap : Z := 50.

(** ** Further string operations of Python used by the pipeline *)

(** [s.endswith(suffix)]. *)
Definition py_endswith (s suffix : pystr) : bool :=
  bool_decide (length suffix <= length s)%nat
  && bool_decide (drop (length s - length suffix) s = suffix).

(** [s.replace(old, new)]: the occurrences of [old] are found from left to
    right and do not overlap.  [skip] counts the characters of a matched
    occurrence that are still to be passed over. *)
Fixpoint py_replace_from (old new : pystr) (skip : nat) (s : pystr) : pystr :=
  match s with
  | [] => []
  | c :: rest =>
    match skip with
    | S k => py_replace_from old new k rest
    | O =>
      if bool_decide (take (length old) s = old)
      then new ++ py_replace_from old new (length old - 1) rest
      else c :: py_replace_from old new 0 rest
    end
  end.

Definition py_replace (s old new : pystr) : pystr :=
  match old with
  | [] => new ++ concat (map (fun c => c :: new) s)
  | _ => py_replace_from old new 0 s
  end.

(** [c.isspace()] on one code point. *)
Definition py_isspace (c : N) : bool :=
  ((9 <=? c) && (c <=? 13) || (28 <=? c) && (c <=? 32)
   || (c =? 133) || (c =? 160) || (c =? 5760)
   || (8192 <=? c) && (c <=? 8202)
   || (c =? 8232) || (c =? 8233) || (c =? 8239) || (c =? 8287)
   || (c =? 12288))%N.

Fixpoint py_lstrip (s : pystr) : pystr :=
  match s with
  | c :: rest => if py_isspace c then py_lstrip rest else s
  | [] => []
  end.

(** [s.strip()]. *)
Definition py_strip (s : pystr) : pystr :=
  reverse (py_lstrip (reverse (py_lstrip s))).

(** [str(i)] for a non-negative index. *)
Definition py_str (i : nat) : pystr :=
  lit (NilEmpty.string_of_uint (Nat.to_uint i)).

(** [x or y] on strings: the empty string is falsy. *)
Definition py_or (x y : pystr) : pystr :=
  match x with [] => y | _ => x end.

Definition nl : pystr := [10%N].

(** ** Exceptions and results *)

Inductive exn :=
  | FileReadError
  | RequestConnectionError
  | RequestTimeout
  | JSONDecodeError
  | AttributeError.

Inductive result (A : Type) :=
  | Ok (a : A)
  | Raise (e : exn)
  | OutOfFuel.
Arguments Ok {A} a.
Arguments Raise {A} e.
Arguments OutOfFuel {A}.

(** ** Document Loader: [load_documents]

    <<
    def load_documents(folder_path="./documents"):
        docs = []
        for filename in os.listdir(folder_path):
            if filename.endswith(".txt"):
                with open(os.path.join(folder_path, filename), "r", encoding="utf-8") as f:
                    content = f.read().replace("\n", " ").replace("  ", " ").strip()
                    docs.append({"name": filename, "content": content})
        return docs
    >>

    The folder is the listing [os.listdir] returns, each name paired with
    what opening and reading that file does. *)

Record document := { name : pystr; content : pystr }.

Inductive read_outcome :=
  | ReadOk (data : pystr)
  | ReadFails (e : exn).

Abbreviation folder := (list (pystr * read_outcome)).

Definition normalise (data : pystr) : pystr :=
  py_strip (py_replace (py_replace data nl (lit " ")) (lit "  ") (lit " ")).

Fixpoint load_loop (entries : folder) (docs : list document)
  : result (list document) :=
  match entries with
  | [] => Ok docs
  | (filename, r) :: rest =>
    if py_endswith filename (lit ".txt") then
      match r with
      | ReadFails e => Raise e
      | ReadOk data =>
        load_loop rest (docs ++ [{| name := filename; content := normalise data |}])
      end
    else load_loop rest docs
  end.

Definition load_documents (folder_path : folder) : result (list document) :=
  load_loop folder_path [].

(** ** The process state, the outside world and the effects of the module *)

(** One exchange kept by Conversation Memory: [{"user": ..., "bot": ...}]. *)
Record turn := { user : pystr; bot : pystr }.

(** The JSON body sent to the generation backend. *)
Record generate_request := { model : pystr; prompt : pystr; stream : bool }.

(** The values [response.json()] can return: what Python's decoder builds
    from a JSON text. *)
Inductive pyfloat :=
  | FloatNaN
  | FloatInfinity (negative : bool)
  | FloatFinite (mantissa exponent : Z).

#[local] Set Warnings "-register-all".
Inductive pyvalue :=
  | PyNone
  | PyBool (b : bool)
  | PyInt (z : Z)
  | PyFloat (x : pyfloat)
  | PyStr (s : pystr)
  | PyList (items : list pyvalue)
  | PyDict (fields : gmap pystr pyvalue).
#[local] Set Warnings "register-all".

(** What [requests.post] hands back when it returns: [json] is [None] when
    [response.json()] raises, and the decoded body otherwise. *)
Record response := {
  status_code : Z;
  text : pystr;
  json : option pyvalue
}.

Inductive post_outcome :=
  | PostRaises (e : exn)
  | PostResponds (r : response).

Inductive event :=
  | Print (args : list pystr)
  | ThreadStart
  | HttpPost (url : pystr) (body : generate_request) (timeout : Z).

Section Pipeline.

(** The embedding vectors and the external collaborators. *)
Context {emb : Type}.

(** One item of the Chroma collection, as [collection.add] receives it. *)
Record entry := {
  entry_id : pystr;
  entry_document : pystr;
  entry_metadata : gmap pystr pystr;
  entry_embedding : emb
}.

(** The module globals [_index_started], [conversation_history] and
    [collection]. *)
Record state := {
  _index_started : bool;
  conversation_history : list turn;
  collection : list entry
}.

(** [embedder.encode(text).tolist()]; the embedder is taken to return. *)
Variable encode : pystr -> emb.
(** [collection.query(query_embeddings=[q], n_results=k)["documents"]] on
    the items held by the collection; the store is taken to return. *)
Variable collection_query : list entry -> emb -> Z -> option (list (list pystr)).
(** [requests.post(url, json=body, timeout=t)]. *)
Variable requests_post : pystr -> generate_request -> Z -> post_outcome.
(** The environment variable [OLLAMA_HOST], when set. *)
Variable env_OLLAMA_HOST : option pystr.
(** The folder [./documents]. *)
Variable documents : folder.

Definition OLLAMA_HOST : pystr :=
  default (lit "http://ollama:11434") env_OLLAMA_HOST.

(** A computation reads and updates the globals, emits events and either
    returns, raises or exhausts its fuel; what was done before a [raise]
    stays done. *)
Definition M (A : Type) : Type := state -> result A * state * list event.

Definition ret {A} (a : A) : M A := fun s => (Ok a, s, []).

Definition bind {A B} (m : M A) (k : A -> M B) : M B := fun s =>
  match m s with
  | (Ok a, s1, t1) => let '(r, s2, t2) := k a s1 in (r, s2, t1 ++ t2)
  | (Raise e, s1, t1) => (Raise e, s1, t1)
  | (OutOfFuel, s1, t1) => (OutOfFuel, s1, t1)
  end.

Notation "'let*' x ':=' m 'in' k" := (bind m (fun x => k))
  (at level 10, x pattern, m at level 100, k at level 200).

Definition lift_result {A} (r : result A) : M A := fun s => (r, s, []).

Definition lift_fuel {A} (o : option A) : M A :=
  lift_result (match o with Some a => Ok a | None => OutOfFuel end).

Definition emit (e : event) : M unit := fun s => (Ok tt, s, [e]).

Definition print (args : list pystr) : M unit := emit (Print args).

Definition get_state : M state := fun s => (Ok s, s, []).

Fixpoint for_each {A} (l : list A) (body : A -> M unit) : M unit :=
  match l with
  | [] => ret tt
  | x :: rest => let* _ := body x in for_each rest body
  end.

(** [enumerate(l)]. *)
Definition enumerate {A} (l : list A) : list (nat * A) :=
  imap (fun i x => (i, x)) l.

(** Assignments to the three globals. *)
Definition with_collection (s : state) (c : list entry) : state :=
  {| _index_started := _index_started s;
     conversation_history := conversation_history s;
     collection := c |}.

Definition with_history (s : state) (h : list turn) : state :=
  {| _index_started := _index_started s;
     conversation_history := h;
     collection := collection s |}.

Definition with_started (s : state) (b : bool) : state :=
  {| _index_started := b;
     conversation_history := conversation_history s;
     collection := collection s |}.

(** [collection.add(ids=[i], documents=[d], metadatas=[m], embeddings=[e])],
    for an id the collection does not hold yet: the item is added after the
    ones already there. *)
Definition collection_add (e : entry) : M unit := fun s =>
  (Ok tt, with_collection s (collection s ++ [e]), []).

(** [conversation_history.append(t)]. *)
Definition conversation_history_append (t : turn) : M unit := fun s =>
  (Ok tt, with_history s (conversation_history s ++ [t]), []).

(** [_index_started = b]. *)
Definition set_index_started (b : bool) : M unit := fun s =>
  (Ok tt, with_started s b, []).

(** ** Index construction: [ensure_index]

    <<
    def ensure_index():
        if len(collection.get()["ids"]) == 0:
            print(...)
            docs = load_documents()
            for doc in docs:
                chunks = chunk_text(doc["content"])
                for i, chunk in enumerate(chunks):
                    emb = embedder.encode(chunk).tolist()
                    collection.add(
                        ids=[f"{doc['name']}_{i}"],
                        documents=[f"{doc['name']}: {chunk}"],
                        metadatas=[{"source": doc["name"]}],
                        embeddings=[emb]
                    )
            print(...)
    >> *)

Definition index_entry (doc : document) (i : nat) (chunk : pystr) : entry :=
  {| entry_id := name doc ++ lit "_" ++ py_str i;
     entry_document := name doc ++ lit ": " ++ chunk;
     entry_metadata := {[ lit "source" := name doc ]};
     entry_embedding := encode chunk |}.

Definition ensure_index (fuel : nat) : M unit :=
  let* s := get_state in
  if len (map entry_id (collection s)) =? 0 then
    let* _ := print [lit "📚 Index üres, dokumentumok feldolgozása..."] in
    let* docs := lift_result (load_documents documents) in
    let* _ := for_each docs (fun doc =>
      let* chunks :=
        lift_fuel (chunk_text fuel (content doc) default_chunk_size default_overlap) in
      for_each (enumerate chunks) (fun '(i, chunk) =>
        collection_add (index_entry doc i chunk))) in
    print [lit "✅ Index létrehozva."]
  else ret tt.

(** ** The start-once trigger: [ensure_index_background]

    <<
    def ensure_index_background():
        global _index_started
        if not _index_started:
            _index_started = True
            threading.Thread(target=ensure_index, daemon=True).start()
            print(...)
    >> *)

Definition ensure_index_background : M unit :=
  let* s := get_state in
  if negb (_index_started s) then
    let* _ := set_index_started true in
    let* _ := emit ThreadStart in
    print [lit "🧠 Dokumentum indexelés fut a háttérben..."]
  else ret tt.

(** The same trigger, statement by statement, for callers that run
    interleaved: the test of the flag, the assignment, the start of the
    thread and the [print] are separate steps of a caller, and another
    caller may run between any two of them. *)

Inductive pc := AtTest | AtSet | AtStart | AtPrint | Finished.

Definition trigger_step (p : pc) : M pc :=
  match p with
  | AtTest =>
    let* s := get_state in
    ret (if negb (_index_started s) then AtSet else Finished)
  | AtSet => let* _ := set_index_started true in ret AtStart
  | AtStart => let* _ := emit ThreadStart in ret AtPrint
  | AtPrint =>
    let* _ := print [lit "🧠 Dokumentum indexelés fut a háttérben..."] in
    ret Finished
  | Finished => ret Finished
  end.

(** The callers, the globals they share and the events so far. *)
Record config := {
  callers : list pc;
  globals : state;
  log : list event
}.

(** Caller [i] takes its next step. *)
Definition sched_step (c : config) (i : nat) : config :=
  match callers c !! i with
  | None => c
  | Some p =>
    match trigger_step p (globals c) with
    | (Ok p', s', t) =>
      {| callers := <[i := p']> (callers c); globals := s'; log := log c ++ t |}
    | _ => c
    end
  end.

Definition run_schedule (schedule : list nat) (c : config) : config :=
  fold_left sched_step schedule c.

(** The schedule in which callers [0 .. n-1] run one after the other. *)
Definition sequential (n : nat) : list nat :=
  flat_map (fun i => replicate 4 i) (seq 0 n).

(** ** Retrieval and answering

    <<
    def search_relevant_chunks(question, top_k=6):
        q_emb = embedder.encode(question).tolist()
        results = collection.query(query_embeddings=[q_emb], n_results=top_k)
        return results["documents"][0] if results["documents"] else []
    >> *)

Definition search_relevant_chunks (question : pystr) (top_k : Z)
  : M (list pystr) :=
  let q_emb := encode question in
  let* s := get_state in
  let results := collection_query (collection s) q_emb top_k in
  ret (match results with
       | Some (first :: _) => first
       | _ => []
       end).

(** [f"Felhasználó: {msg['user']}\nAsszisztens: {msg['bot']}"]. *)
Definition render_turn (msg : turn) : pystr :=
  lit "Felhasználó: " ++ user msg ++ nl ++ lit "Asszisztens: " ++ bot msg.

(** The f-string of [ask_ollama], line by line. *)
Definition prompt_template (context history_context question : pystr)
  : pystr :=
  nl
  ++ lit "Te egy magyar nyelvű szakértő asszisztens vagy, aki dokumentumok alapján válaszol." ++ nl
  ++ nl
  ++ lit "🧩 Szabályok:" ++ nl
  ++ lit "- Mindig magyarul válaszolj." ++ nl
  ++ lit "- Csak a dokumentumrészletekre támaszkodj." ++ nl
  ++ lit "- Ha nincs releváns információ: "
     ++ dquote ++ lit "Nem található a dokumentumban." ++ dquote ++ nl
  ++ lit "- A beszélgetés folyamatosságát tartsd fenn: vedd figyelembe a korábbi kérdéseket is." ++ nl
  ++ lit "- Légy rövid, pontos, logikus." ++ nl
  ++ nl
  ++ lit "📄 Dokumentumrészletek:" ++ nl
  ++ context ++ nl
  ++ nl
  ++ lit "💬 Korábbi beszélgetés:" ++ nl
  ++ history_context ++ nl
  ++ nl
  ++ lit "❓ Aktuális kérdés:" ++ nl
  ++ question ++ nl
  ++ nl
  ++ lit "🧠 Válasz (magyarul):" ++ nl.

(** The two fixed fallback texts of [ask_ollama]. *)
Definition api_error_message : pystr := lit "⚠️ Hiba az Ollama API hívásakor".
Definition empty_answer_message : pystr := lit "⚠️ Üres válasz érkezett.".

(** [requests.post(...)]: the call is recorded, then it returns a response
    or raises. *)
Definition post (url : pystr) (body : generate_request) (timeout : Z)
  : M response :=
  let* _ := emit (HttpPost url body timeout) in
  lift_result (match requests_post url body timeout with
               | PostRaises e => Raise e
               | PostResponds r => Ok r
               end).

(** [response.json()]. *)
Definition response_json (r : response) : M pyvalue :=
  lift_result (match json r with
               | Some data => Ok data
               | None => Raise JSONDecodeError
               end).

(** [data.get(key, fallback)]: a dict has the method, and gives the value
    under the key or the fallback; on any other value the attribute lookup
    raises. *)
Definition value_get (data : pyvalue) (key : pystr) (fallback : pyvalue)
  : M pyvalue :=
  lift_result (match data with
               | PyDict fields => Ok (default fallback (fields !! key))
               | _ => Raise AttributeError
               end).

(** [value.strip()]: a str has the method; on any other value the attribute
    lookup raises. *)
Definition value_strip (value : pyvalue) : M pystr :=
  lift_result (match value with
               | PyStr s => Ok (py_strip s)
               | _ => Raise AttributeError
               end).

(** <<
    def ask_ollama(question: str):
        chunks = search_relevant_chunks(question)
        context = "\n\n".join(chunks)
        history_context = "\n".join(
            [f"..." for msg in conversation_history[-5:]]
        )
        prompt = f'''...'''
        response = requests.post(
            f"{OLLAMA_HOST}/api/generate",
            json={"model": "llama3:8b-instruct-q4_0", "prompt": prompt, "stream": False},
            timeout=120
        )
        if response.status_code != 200:
            print(..., response.text)
            return "..."
        data = response.json()
        answer = data.get("response", '').strip() or "..."
        conversation_history.append({"user": question, "bot": answer})
        return answer
    >> *)
Definition ask_ollama (question : pystr) : M pystr :=
  let* chunks := search_relevant_chunks question 6 in
  let context := py_join (nl ++ nl) chunks in
  let* s := get_state in
  let history_context :=
    py_join nl
      (map render_turn (py_slice (conversation_history s) (Some (-5)) None)) in
  let prompt := prompt_template context history_context question in
  let* response :=
    post (OLLAMA_HOST ++ lit "/api/generate")
      {| model := lit "llama3:8b-instruct-q4_0"; prompt := prompt; stream := false |}
      120 in
  if negb (status_code response =? 200) then
    let* _ := print [lit "⚠️ Ollama API hiba:"; text response] in
    ret api_error_message
  else
    let* data := response_json response in
    let* generated := value_get data (lit "response") (PyStr []) in
    let* stripped := value_strip generated in
    let answer := py_or stripped empty_answer_message in
    let* _ := conversation_history_append {| user := question; bot := answer |} in
    ret answer.

(** <<
    @router.post("/ask")
    async def ask_api(q: Question):
        ensure_index_background()
        answer = ask_ollama(q.question)
        print(f"... {q.question}")
        print(f"... {answer}")
        return {"answer": answer}
    >> *)
Definition ask_api (question : pystr) : M pystr :=
  let* _ := ensure_index_background in
  let* answer := ask_ollama question in
  let* _ := print [lit "🧠 Kérdés: " ++ question] in
  let* _ := print [lit "💬 Válasz: " ++ answer] in
  ret answer.

(** The globals when the module has just been created, before its own
    call [ensure_index_background()] at import time; the persisted
    collection may already hold items. *)
Definition initial_state (persisted : list entry) : state :=
  {| _index_started := false;
     conversation_history := [];
     collection := persisted |}.

(** The module body, run once when the module is imported: it ends with the
    call [ensure_index_background()]. *)
Definition import_module (persisted : list entry)
  : result unit * state * list event :=
  ensure_index_background (initial_state persisted).

Definition result_of {A} (x : result A * state * list event) : result A :=
  x.1.1.
Definition state_of {A} (x : result A * state * list event) : state :=
  x.1.2.
Definition trace_of {A} (x : result A * state * list event) : list event :=
  x.2.

(** Number of indexing threads started in a trace. *)
Fixpoint launches (t : list event) : nat :=
  match t with
  | [] => 0
  | ThreadStart :: rest => S (launches rest)
  | _ :: rest => launches rest
  end.

End Pipeline.

Arguments entry : clear implicits.
Arguments state : clear implicits.
Arguments config : clear implicits.

(** ** Notions used to state the properties *)

(** The entries of a folder that [load_documents] opens. *)
Definition is_txt (e : pystr * read_outcome) : bool :=
  py_endswith e.1 (lit ".txt").

(** The Document a folder entry gives when it is a text file that can be
    read. *)
Definition document_of (e : pystr * read_outcome) : option document :=
  if is_txt e then
    match e.2 with
    | ReadOk data => Some {| name := e.1; content := normalise data |}
    | ReadFails _ => None
    end
  else None.

Definition readable_documents (f : folder) : list document :=
  omap document_of f.

(** No text file of the folder fails to be read. *)
Definition all_readable (f : folder) : Prop :=
  Forall (fun e => is_txt e = true -> exists data, e.2 = ReadOk data) f.

Definition is_http_post (e : event) : bool :=
  match e with HttpPost _ _ _ => true | _ => false end.

(** The fixed text of the prompt around its three slots. *)
Definition prompt_head : pystr :=
  nl
  ++ lit "Te egy magyar nyelvű szakértő asszisztens vagy, aki dokumentumok alapján válaszol." ++ nl
  ++ nl
  ++ lit "🧩 Szabályok:" ++ nl
  ++ lit "- Mindig magyarul válaszolj." ++ nl
  ++ lit "- Csak a dokumentumrészletekre támaszkodj." ++ nl
  ++ lit "- Ha nincs releváns információ: "
     ++ dquote ++ lit "Nem található a dokumentumban." ++ dquote ++ nl
  ++ lit "- A beszélgetés folyamatosságát tartsd fenn: vedd figyelembe a korábbi kérdéseket is." ++ nl
  ++ lit "- Légy rövid, pontos, logikus." ++ nl
  ++ nl
  ++ lit "📄 Dokumentumrészletek:" ++ nl.

Definition prompt_history_label : pystr :=
  nl ++ nl ++ lit "💬 Korábbi beszélgetés:" ++ nl.

Definition prompt_question_label : pystr :=
  nl ++ nl ++ lit "❓ Aktuális kérdés:" ++ nl.

Definition prompt_tail : pystr :=
  nl ++ nl ++ lit "🧠 Válasz (magyarul):" ++ nl.

(** The generated text of a decoded body, when [data.get("response", '')]
    and [.strip()] go through: the body is an object whose "response" is
    missing or a string. *)
Definition generated_text (data : pyvalue) : option pystr :=
  match data with
  | PyDict fields =>
    match fields !! lit "response" with
    | None => Some []
    | Some (PyStr s) => Some s
    | Some _ => None
    end
  | _ => None
  end.

(** The answer [ask_ollama] makes of a generated text. *)
Definition answer_of (generated : pystr) : pystr :=
  py_or (py_strip generated) empty_answer_message.

(** [e] is the item stored for some chunk of some document of [docs]. *)
Definition stored_for {emb} (encode : pystr -> emb)
    (docs : list document) (fuel : nat) (e : entry emb) : Prop :=
  exists doc chunks (i : nat) chunk,
    doc ∈ docs
    /\ chunk_text fuel (content doc) default_chunk_size default_overlap = Some chunks
    /\ chunks !! i = Some chunk
    /\ e = {| entry_id := name doc ++ lit "_" ++ py_str i;
              entry_document := name doc ++ lit ": " ++ chunk;
              entry_metadata := {[ lit "source" := name doc ]};
              entry_embedding := encode chunk |}.

(** A configuration in which the flag is set and no caller is past the test
    of the flag with the intention to start the indexer. *)
Definition settled {emb} (c : config emb) : Prop :=
  _index_started (globals c) = true
  /\ Forall (fun p => p = AtTest \/ p = Finished) (callers c).

(** The code points of a decimal numeral. *)
Fixpoint uint_codes (d : Decimal.uint) : pystr :=
  match d with
  | Decimal.Nil => []
  | Decimal.D0 d => 48%N :: uint_codes d
  | Decimal.D1 d => 49%N :: uint_codes d
  | Decimal.D2 d => 50%N :: uint_codes d
  | Decimal.D3 d => 51%N :: uint_codes d
  | Decimal.D4 d => 52%N :: uint_codes d
  | Decimal.D5 d => 53%N :: uint_codes d
  | Decimal.D6 d => 54%N :: uint_codes d
  | Decimal.D7 d => 55%N :: uint_codes d
  | Decimal.D8 d => 56%N :: uint_codes d
  | Decimal.D9 d => 57%N :: uint_codes d
  end.

(** The JSON body [ask_ollama] posts for given passages, turns and
    question. *)
Definition request_of (chunks : list pystr) (turns : list turn) (question : pystr)
  : generate_request :=
  {| model := lit "llama3:8b-instruct-q4_0";
     prompt := prompt_template (py_join (nl ++ nl) chunks)
                 (py_join nl (map render_turn turns)) question;
     stream := false |}.

(** ** Sample collaborators for the concrete cases *)

Definition no_embedding : pystr -> unit := fun _ => tt.

(** A query that finds nothing: one empty list of documents for the one
    query embedding. *)
Definition no_results : list (entry unit) -> unit -> Z -> option (list (list pystr)) :=
  fun _ _ _ => Some [[]].

Definition timing_out : pystr -> generate_request -> Z -> post_outcome :=
  fun _ _ _ => PostRaises RequestTimeout.

Definition answering (r : response) : pystr -> generate_request -> Z -> post_outcome :=
  fun _ _ _ => PostResponds r.

Definition server_error : response :=
  {| status_code := 500; text := lit "Internal Server Error"; json := None |}.

Definition blank_answer : response :=
  {| status_code := 200;
     text := lit "{}";
     json := Some (PyDict {[ lit "response" := PyStr (lit "  ") ]}) |}.

Definition street_answer : response :=
  {| status_code := 200;
     text := lit "{}";
     json := Some (PyDict {[ lit "response" := PyStr (lit " Main Street. ") ]}) |}.

(** A 200 response whose body is not JSON. *)
Definition html_answer : response :=
  {| status_code := 200; text := lit "<html></html>"; json := None |}.

(** A 200 response with the body [{"response": null}]. *)
Definition null_answer : response :=
  {| status_code := 200;
     text := lit "{}";
     json := Some (PyDict {[ lit "response" := PyNone ]}) |}.

(** A 200 response with the body [[]]. *)
Definition list_answer : response :=
  {| status_code := 200; text := lit "[]"; json := Some (PyList []) |}.

(** A 200 response with the body [{}]. *)
Definition empty_object_answer : response :=
  {| status_code := 200; text := lit "{}"; json := Some (PyDict ∅) |}.

(** A query that finds two passages. *)
Definition two_passages : list (entry unit) -> unit -> Z -> option (list (list pystr)) :=
  fun _ _ _ =>
    Some [[lit "town.txt: Main Street has three potholes.";
           lit "park.txt: The park opens at nine."]].


(** The globals of a process that has imported the module, with nothing
    persisted and nothing indexed yet. *)
Definition fresh_process : state unit :=
  (import_module []).1.2.

(** The globals after six recorded exchanges. *)
Definition chatted : state unit :=
  with_history fresh_process
    [ {| user := lit "Q1"; bot := lit "A1" |};
      {| user := lit "Q2"; bot := lit "A2" |};
      {| user := lit "Q3"; bot := lit "A3" |};
      {| user := lit "Q4"; bot := lit "A4" |};
      {| user := lit "Q5"; bot := lit "A5" |};
      {| user := lit "Q6"; bot := lit "A6" |} ].

(** A folder of two text files and one file of another kind. *)
Definition open_folder : folder :=
  [ (lit "town.txt", ReadOk (lit "Main Street has three potholes."));
    (lit "notes.md", ReadFails FileReadError);
    (lit "park.txt", ReadOk (lit "The park opens at nine.")) ].

Definition town_folder : folder :=
  [ (lit "town.txt", ReadOk (lit "Main Street has three potholes."));
    (lit "locked.txt", ReadFails FileReadError);
    (lit "park.txt", ReadOk (lit "The park opens at nine.")) ].

(** * Properties *)

(** ** Slices *)

Lemma len_nonneg {A} (l : list A) : 0 <= len l.
Proof. unfold len. lia. Qed.

Lemma len_app {A} (l k : list A) : len (l ++ k) = len l + len k.
Proof. unfold len. rewrite length_app. lia. Qed.

(** A window [l[a:a+k]] with [a] and [k] non-negative is [k] elements taken
    after dropping [a]. *)
Lemma py_slice_window {A} (l : list A) (a k : Z) :
  0 <= a -> 0 <= k ->
  py_slice l (Some a) (Some (a + k)) = take (Z.to_nat k) (drop (Z.to_nat a) l).
Proof.
  intros Ha Hk. unfold py_slice, py_bound, len.
  destruct (Z.ltb_spec a 0) as [?|_]; [lia|].
  destruct (Z.ltb_spec (a + k) 0) as [?|_]; [lia|].
  destruct (Z.le_gt_cases (a + k) (Z.of_nat (length l))) as [Hin|Hout].
  - rewrite !Z.min_l by lia. f_equal. lia.
  - rewrite (Z.min_r (a + k)) by lia.
    destruct (Z.le_gt_cases a (Z.of_nat (length l))) as [Ha'|Ha'].
    + rewrite Z.min_l by lia.
      rewrite !take_ge; [done | rewrite length_drop; lia | rewrite length_drop; lia].
    + rewrite Z.min_r by lia.
      rewrite !take_ge; [| rewrite length_drop; lia | rewrite length_drop; lia].
      rewrite !drop_ge by lia. done.
Qed.

(** [l[a:]] with [a] non-negative drops [a] elements. *)
Lemma py_slice_from {A} (l : list A) (a : Z) :
  0 <= a -> py_slice l (Some a) None = drop (Z.to_nat a) l.
Proof.
  intros Ha. unfold py_slice, py_bound, len.
  destruct (Z.ltb_spec a 0) as [?|_]; [lia|].
  destruct (Z.le_gt_cases a (Z.of_nat (length l))) as [Hin|Hout].
  - rewrite Z.min_l by lia. apply take_ge. rewrite length_drop. lia.
  - rewrite Z.min_r by lia. rewrite take_ge by (rewrite length_drop; lia).
    rewrite !drop_ge by lia. done.
Qed.

(** [l[-k:]] keeps the last [k] elements, or all of [l] when it is shorter. *)
Lemma py_slice_last {A} (l : list A) (k : nat) :
  (0 < k)%nat ->
  py_slice l (Some (- Z.of_nat k)) None = drop (length l - k) l.
Proof.
  intros Hk. unfold py_slice, py_bound, len.
  destruct (Z.ltb_spec (- Z.of_nat k) 0) as [_|?]; [|lia].
  rewrite take_ge by (rewrite length_drop; lia).
  f_equal. lia.
Qed.

(** ** Chunker *)

Section Chunker.
Variables (text : pystr) (chunk_size overlap : Z).

Local Abbreviation step := (chunk_size - overlap).
Local Abbreviation window := (window text chunk_size).
Local Abbreviation windows_inv := (windows_inv text chunk_size overlap).

Lemma chunk_loop_unfold fuel chunks start :
  chunk_loop fuel text chunk_size overlap chunks start =
  if start <? len text then
    match fuel with
    | O => None
    | S fuel' =>
      chunk_loop fuel' text chunk_size overlap
        (chunks ++ [window start]) (start + step)
    end
  else Some chunks.
Proof. destruct fuel; reflexivity. Qed.

(** Hoare-style rule for the loop: a property of [(chunks, start)] kept by
    one iteration holds, with the loop condition false, when the loop
    returns. *)
Lemma chunk_loop_invariant (Inv : list pystr -> Z -> Prop) :
  (forall chunks start,
      Inv chunks start -> start < len text ->
      Inv (chunks ++ [window start]) (start + step)) ->
  forall fuel chunks start res,
    Inv chunks start ->
    chunk_loop fuel text chunk_size overlap chunks start = Some res ->
    exists start', Inv res start' /\ len text <= start'.
Proof.
  intros Hkeep fuel. induction fuel as [|fuel IH]; intros chunks start res Hinv;
    rewrite chunk_loop_unfold; destruct (Z.ltb_spec start (len text)) as [Hlt|Hge];
    intros Hrun; simplify_eq; eauto.
Qed.

(** With [overlap < chunk_size] the offset advances, and as many
    iterations as characters left are enough. *)
Lemma chunk_loop_terminates fuel chunks start :
  overlap < chunk_size ->
  len text - start <= Z.of_nat fuel ->
  is_Some (chunk_loop fuel text chunk_size overlap chunks start).
Proof.
  intros Hstep. revert chunks start.
  induction fuel as [|fuel IH]; intros chunks start Hfuel;
    rewrite chunk_loop_unfold; destruct (Z.ltb_spec start (len text)) as [Hlt|Hge];
    eauto; [lia|].
  apply IH. lia.
Qed.

(** More fuel does not change what the loop returns. *)
Lemma chunk_loop_fuel_mono fuel fuel' chunks start res :
  (fuel <= fuel')%nat ->
  chunk_loop fuel text chunk_size overlap chunks start = Some res ->
  chunk_loop fuel' text chunk_size overlap chunks start = Some res.
Proof.
  revert fuel' chunks start.
  induction fuel as [|fuel IH]; intros fuel' chunks start Hle;
    rewrite !(chunk_loop_unfold _ chunks start);
    destruct (Z.ltb_spec start (len text)) as [Hlt|Hge]; try done.
  destruct fuel' as [|fuel']; [lia|]. apply IH. lia.
Qed.

(** With [chunk_size <= overlap] the offset never moves forward: once the
    loop condition holds it holds for ever. *)
Lemma chunk_loop_stuck fuel chunks start :
  chunk_size <= overlap ->
  start < len text ->
  chunk_loop fuel text chunk_size overlap chunks start = None.
Proof.
  intros Hstep. revert chunks start.
  induction fuel as [|fuel IH]; intros chunks start Hlt;
    rewrite chunk_loop_unfold; destruct (Z.ltb_spec start (len text)) as [_|?];
    try lia; [done|].
  apply IH. lia.
Qed.

Section Windows.
Hypothesis overlap_nonneg : 0 <= overlap.
Hypothesis overlap_lt_size : overlap < chunk_size.

Lemma window_take_drop start :
  0 <= start ->
  window start = take (Z.to_nat chunk_size) (drop (Z.to_nat start) text).
Proof. intros. apply py_slice_window; lia. Qed.

Lemma remove_overlap_snoc chunks c :
  chunks <> [] ->
  remove_overlap overlap (chunks ++ [c])
  = remove_overlap overlap chunks ++ drop (Z.to_nat overlap) c.
Proof.
  destruct chunks as [|c0 cs]; [done|]. intros _. simpl.
  rewrite map_app, concat_app. simpl.
  rewrite py_slice_from by done. rewrite app_nil_r, app_assoc. done.
Qed.

Lemma windows_inv_init : windows_inv [] 0.
Proof.
  split; [done|]. split; [|done].
  intros i c Hi. by rewrite lookup_nil in Hi.
Qed.

Lemma windows_inv_keep chunks start :
  windows_inv chunks start -> start < len text ->
  windows_inv (chunks ++ [window start]) (start + step).
Proof.
  intros (Hstart & Hwin & Hcat) Hlt.
  assert (0 <= start) by (pose proof (len_nonneg chunks); nia).
  split; [|split].
  - rewrite len_app. unfold len at 2. simpl. lia.
  - intros i c Hi. apply lookup_app_Some in Hi as [Hi|[Hlen Hi]]; [by apply Hwin|].
    apply list_lookup_singleton_Some in Hi as [Hi <-].
    assert (Z.of_nat i * step = start) as -> by (unfold len in Hstart; nia).
    done.
  - intros _. destruct (decide (chunks = [])) as [->|Hne].
    + unfold len in Hstart. simpl in Hstart. subst start.
      rewrite window_take_drop by done. simpl. rewrite app_nil_r.
      f_equal. lia.
    + rewrite remove_overlap_snoc, Hcat, window_take_drop by done.
      rewrite skipn_firstn_comm, drop_drop.
      replace (Z.to_nat start + Z.to_nat overlap)%nat
        with (Z.to_nat (start + overlap)) by lia.
      rewrite take_take_drop. f_equal. lia.
Qed.
End Windows.
End Chunker.

Lemma window_length text chunk_size start :
  0 <= start -> 0 <= chunk_size ->
  len (window text chunk_size start) = Z.max 0 (Z.min chunk_size (len text - start)).
Proof.
  intros. unfold window. rewrite py_slice_window by done.
  unfold len. rewrite length_take, length_drop. lia.
Qed.

Lemma window_overlap text chunk_size overlap start :
  0 <= start -> 0 <= overlap -> overlap < chunk_size ->
  drop (Z.to_nat (chunk_size - overlap)) (window text chunk_size start)
  `prefix_of` window text chunk_size (start + (chunk_size - overlap)).
Proof.
  intros. unfold window. rewrite !py_slice_window by lia.
  rewrite skipn_firstn_comm, drop_drop.
  replace (Z.to_nat start + Z.to_nat (chunk_size - overlap))%nat
    with (Z.to_nat (start + (chunk_size - overlap))) by lia.
  set (rest := drop _ text).
  replace (Z.to_nat chunk_size - Z.to_nat (chunk_size - overlap))%nat
    with (Z.to_nat overlap) by lia.
  exists (drop (Z.to_nat overlap) (take (Z.to_nat chunk_size) rest)).
  rewrite <- (take_drop (Z.to_nat overlap) (take (Z.to_nat chunk_size) rest)) at 1.
  f_equal. rewrite take_take. f_equal. lia.
Qed.

(** C5: for [chunk_size > overlap >= 0] and a non-empty text, [chunk_text]
    returns, with as many iterations as the text has characters and with the
    same chunks for any larger bound. There is at least one chunk; chunk [i]
    is the window [text[i*step : i*step + chunk_size]] for
    [step = chunk_size - overlap], so the chunks follow the text in order;
    every chunk has between one and [chunk_size] characters; the windows
    reach the end of the text; what is left of a chunk after its first
    [step] characters is the beginning of the next chunk; and the chunks put
    back together without the overlaps are the text. *)
Theorem chunk_text_windows (text : pystr) (chunk_size overlap : Z) :
  0 <= overlap -> overlap < chunk_size -> text <> [] ->
  exists chunks : list pystr,
    (forall fuel, (length text <= fuel)%nat ->
        chunk_text fuel text chunk_size overlap = Some chunks)
    /\ (forall fuel res,
        chunk_text fuel text chunk_size overlap = Some res -> res = chunks)
    /\ (1 <= length chunks)%nat
    /\ (forall (i : nat) c, chunks !! i = Some c ->
        c = py_slice text (Some (Z.of_nat i * (chunk_size - overlap)))
                          (Some (Z.of_nat i * (chunk_size - overlap) + chunk_size))
        /\ Z.of_nat i * (chunk_size - overlap) < len text
        /\ 1 <= len c <= chunk_size)
    /\ len text <= len chunks * (chunk_size - overlap)
    /\ (forall (i : nat) c c', chunks !! i = Some c -> chunks !! S i = Some c' ->
        drop (Z.to_nat (chunk_size - overlap)) c `prefix_of` c')
    /\ remove_overlap overlap chunks = text.
Proof.
  intros Hov Hsz Hne.
  destruct (chunk_loop_terminates text chunk_size overlap (length text) [] 0 Hsz)
    as [chunks Hrun]; [unfold len; lia|].
  destruct (chunk_loop_invariant text chunk_size overlap
              (windows_inv text chunk_size overlap)
              (windows_inv_keep text chunk_size overlap Hov Hsz)
              _ _ _ _ (windows_inv_init text chunk_size overlap) Hrun)
    as (start' & (Hstart & Hwin & Hcat) & Hexit).
  assert (0 < len text) as Hpos by (destruct text; [done | unfold len; simpl; lia]).
  assert (chunks <> []) as Hchunks.
  { intros ->. unfold len in Hstart at 1. simpl in Hstart. lia. }
  exists chunks. repeat apply conj.
  - intros fuel Hfuel. eapply chunk_loop_fuel_mono; eauto.
  - intros fuel res Hres. destruct (Nat.le_ge_cases fuel (length text)) as [Hle|Hge].
    + pose proof (chunk_loop_fuel_mono _ _ _ _ _ _ _ _ Hle Hres) as Hres'.
      unfold chunk_text in *. congruence.
    + pose proof (chunk_loop_fuel_mono _ _ _ _ _ _ _ _ Hge Hrun) as Hres'.
      unfold chunk_text in *. congruence.
  - destruct chunks; [done | simpl; lia].
  - intros i c Hi. destruct (Hwin i c Hi) as [Hlt ->].
    split; [done|]. split; [done|].
    rewrite window_length by nia. lia.
  - lia.
  - intros i c c' Hi HSi.
    destruct (Hwin i c Hi) as [Hlt ->]. destruct (Hwin (S i) c' HSi) as [Hlt' ->].
    replace (Z.of_nat (S i) * (chunk_size - overlap))
      with (Z.of_nat i * (chunk_size - overlap) + (chunk_size - overlap)) by lia.
    apply window_overlap; nia.
  - rewrite Hcat by done. apply take_ge. unfold len in *. lia.
Qed.

Lemma chunk_text_windows_witness :
  exists chunks : list pystr,
    chunk_text 12 (lit "abcdefghijkl") 10 5 = Some chunks
    /\ remove_overlap 5 chunks = lit "abcdefghijkl".
Proof.
  destruct (chunk_text_windows (lit "abcdefghijkl") 10 5) as (chunks & Hrun & _ & _ & _ & _ & _ & Hcat);
    [lia | lia | discriminate |].
  exists chunks. split; [apply Hrun; vm_compute; lia | exact Hcat].
Defined.

(** C2: [chunk_text] has no guard for [overlap >= chunk_size]. On the call
    [chunk_text("a", chunk_size=10, overlap=10)] the offset stays at 0 and
    the loop condition stays true: no number of iterations lets the call
    return. *)
Theorem chunk_text_equal_overlap_never_returns :
  forall fuel : nat, chunk_text fuel (lit "a") 10 10 = None.
Proof. intros fuel. apply chunk_loop_stuck; [lia | reflexivity]. Qed.

(** The same for every non-empty text and every [overlap >= chunk_size]. *)
Lemma chunk_text_unguarded (fuel : nat) (text : pystr) (chunk_size overlap : Z) :
  text <> [] -> chunk_size <= overlap ->
  chunk_text fuel text chunk_size overlap = None.
Proof.
  intros Hne Hov. apply chunk_loop_stuck; [done|].
  destruct text; [done | unfold len; simpl; lia].
Qed.

(** C10: on the empty text [chunk_text] returns the empty list of chunks,
    whatever the chunk size and the overlap, without a single iteration. *)
Theorem chunk_text_empty :
  forall (fuel : nat) (chunk_size overlap : Z),
    chunk_text fuel [] chunk_size overlap = Some [].
Proof. intros fuel chunk_size overlap. by destruct fuel. Qed.

(** ** Document Loader *)

Lemma load_loop_readable (pre rest : folder) (docs : list document) :
  all_readable pre ->
  load_loop (pre ++ rest) docs = load_loop rest (docs ++ readable_documents pre).
Proof.
  revert docs. induction pre as [|[filename r] pre IH]; intros docs Hall; simpl.
  - by rewrite app_nil_r.
  - apply Forall_cons in Hall as [Hhead Hall].
    unfold readable_documents, document_of, is_txt in *. simpl in *.
    destruct (py_endswith filename (lit ".txt")) eqn:Htxt.
    + destruct (Hhead eq_refl) as [data ->]. simpl.
      rewrite IH by done. by rewrite <- app_assoc.
    + by apply IH.
Qed.

(** C7 (as the code has it): [load_documents] has no per-file recovery. When
    every text file of the folder can be read it returns their Documents in
    listing order; the first text file whose read fails makes the whole
    call raise that failure, and no Document is returned. *)
Theorem load_documents_all_or_nothing :
  (forall f : folder,
      all_readable f -> load_documents f = Ok (readable_documents f))
  /\ (forall (pre post : folder) (filename : pystr) (e : exn),
      all_readable pre ->
      py_endswith filename (lit ".txt") = true ->
      load_documents (pre ++ (filename, ReadFails e) :: post) = Raise e).
Proof.
  split.
  - intros f Hall. unfold load_documents.
    rewrite <- (app_nil_r f) at 1. by rewrite load_loop_readable.
  - intros pre post filename e Hall Htxt. unfold load_documents.
    rewrite load_loop_readable by done. simpl. by rewrite Htxt.
Qed.

Lemma load_documents_all_or_nothing_witness :
  load_documents (take 1 town_folder) = Ok (readable_documents (take 1 town_folder))
  /\ load_documents town_folder = Raise FileReadError.
Proof.
  split.
  - apply (proj1 load_documents_all_or_nothing).
    repeat constructor. intros _. by eexists.
  - apply (proj2 load_documents_all_or_nothing (take 1 town_folder) (drop 2 town_folder)).
    + repeat constructor. intros _. by eexists.
    + vm_compute. reflexivity.
Defined.

(** C7 (as claimed) fails: with one unreadable file between two readable
    ones the loader returns no Documents at all. *)
Lemma load_documents_unreadable_file_aborts :
  load_documents town_folder = Raise FileReadError
  /\ forall docs, load_documents town_folder <> Ok docs.
Proof. split; [vm_compute; reflexivity | intros docs; vm_compute; discriminate]. Qed.

(** ** Index construction *)

Section Indexing.
Context {emb : Type}.
Variable encode : pystr -> emb.
Variable documents : folder.

Lemma with_collection_same (s : state emb) : with_collection s (collection s) = s.
Proof. by destruct s. Qed.

Lemma bind_ok {A B} (m : M A) (k : A -> M B) (s s1 : state emb) a t1 :
  m s = (Ok a, s1, t1) ->
  bind m k s = (let '(r, s2, t2) := k a s1 in (r, s2, t1 ++ t2)).
Proof. intros Hm. unfold bind. by rewrite Hm. Qed.

(** The inner loop appends one item per chunk, in order. *)
Lemma add_chunks_run (f : nat -> pystr -> entry emb) (g : nat -> pystr -> nat * pystr)
    (chunks : list pystr) (s : state emb) :
  for_each (imap g chunks) (fun '(i, chunk) => collection_add (f i chunk)) s
  = (Ok tt,
     with_collection s
       (collection s ++ imap (fun i c => f (g i c).1 (g i c).2) chunks),
     []).
Proof.
  revert g s. induction chunks as [|c chunks IH]; intros g s; simpl.
  - unfold ret. by rewrite app_nil_r, with_collection_same.
  - unfold bind at 1. destruct (g 0%nat c) as [j c'] eqn:Hg. simpl.
    rewrite IH. simpl. rewrite <- app_assoc. done.
Qed.

Lemma add_enumerated_run (f : nat -> pystr -> entry emb)
    (chunks : list pystr) (s : state emb) :
  for_each (enumerate chunks) (fun '(i, chunk) => collection_add (f i chunk)) s
  = (Ok tt, with_collection s (collection s ++ imap f chunks), []).
Proof. unfold enumerate. by rewrite add_chunks_run. Qed.

Lemma chunk_text_default_returns (fuel : nat) (text : pystr) :
  (length text <= fuel)%nat ->
  exists chunks, chunk_text fuel text default_chunk_size default_overlap = Some chunks.
Proof.
  intros Hfuel. apply (chunk_loop_terminates text default_chunk_size default_overlap).
  - unfold default_chunk_size, default_overlap. lia.
  - unfold len. lia.
Qed.

Lemma index_documents_run (fuel : nat) (docs : list document) (s : state emb) :
  Forall (fun d => (length (content d) <= fuel)%nat) docs ->
  exists added,
    for_each docs (fun doc =>
      bind (lift_fuel (chunk_text fuel (content doc) default_chunk_size default_overlap))
        (fun chunks =>
          for_each (enumerate chunks) (fun '(i, chunk) =>
            collection_add (index_entry encode doc i chunk)))) s
    = (Ok tt, with_collection s (collection s ++ added), [])
    /\ forall e, e ∈ added <-> stored_for encode docs fuel e.
Proof.
  revert s. induction docs as [|d docs IH]; intros s Hfuel.
  - exists []. split.
    + simpl. unfold ret. by rewrite app_nil_r, with_collection_same.
    + intros e. split; [by intros ?%elem_of_nil|].
      by intros (doc & ? & ? & ? & ?%elem_of_nil & _).
  - apply Forall_cons in Hfuel as [Hd Hfuel].
    destruct (chunk_text_default_returns fuel (content d) Hd) as [chunks Hchunks].
    set (s1 := with_collection s
                 (collection s ++ imap (index_entry encode d) chunks)).
    destruct (IH s1 Hfuel) as (added & Hrun & Hadded).
    exists (imap (index_entry encode d) chunks ++ added). split.
    + change (for_each (d :: docs) ?body) with (bind (body d) (fun _ => for_each docs body)).
      erewrite bind_ok; last first.
      { erewrite bind_ok; last (unfold lift_fuel, lift_result; by rewrite Hchunks).
        rewrite add_enumerated_run. reflexivity. }
      fold s1. rewrite Hrun. subst s1. simpl. by rewrite <- app_assoc.
    + intros e. rewrite elem_of_app, Hadded, elem_of_lookup_imap. split.
      * intros [(i & chunk & -> & Hi)|(doc & cs & i & chunk & Hdoc & Hcs & Hi & ->)].
        -- exists d, chunks, i, chunk. by rewrite elem_of_cons; auto.
        -- exists doc, cs, i, chunk. by rewrite elem_of_cons; auto.
      * intros (doc & cs & i & chunk & Hdoc & Hcs & Hi & ->).
        apply elem_of_cons in Hdoc as [->|Hdoc].
        -- left. exists i, chunk. split; [done|]. congruence.
        -- right. by exists doc, cs, i, chunk.
Qed.
End Indexing.

Lemma ensure_index_nonempty {emb} (encode : pystr -> emb) (documents : folder)
    (fuel : nat) (s : state emb) :
  collection s <> [] -> ensure_index encode documents fuel s = (Ok tt, s, []).
Proof.
  intros Hne. unfold ensure_index, bind, get_state.
  destruct (collection s) as [|e c] eqn:Hc; [done|]. reflexivity.
Qed.

(** C9: when [ensure_index] fills the empty collection, the items it stores
    are exactly one per chunk of every loaded document, and the text stored
    for chunk [i] of a document is not the chunk alone but the document
    name, a colon and a space, then the chunk; its id is the name, an
    underscore and [i]. *)
Theorem ensure_index_stores_named_text {emb} (encode : pystr -> emb)
    (documents : folder) (fuel : nat) (s : state emb) (docs : list document) :
  collection s = [] ->
  load_documents documents = Ok docs ->
  Forall (fun d => (length (content d) <= fuel)%nat) docs ->
  result_of (ensure_index encode documents fuel s) = Ok tt
  /\ forall e : entry emb,
      e ∈ collection (state_of (ensure_index encode documents fuel s))
      <-> exists doc chunks (i : nat) chunk,
            doc ∈ docs
            /\ chunk_text fuel (content doc) default_chunk_size default_overlap
               = Some chunks
            /\ chunks !! i = Some chunk
            /\ e = {| entry_id := name doc ++ lit "_" ++ py_str i;
                      entry_document := name doc ++ lit ": " ++ chunk;
                      entry_metadata := {[ lit "source" := name doc ]};
                      entry_embedding := encode chunk |}.
Proof.
  intros Hempty Hload Hfuel.
  destruct (index_documents_run encode fuel docs s Hfuel) as (added & Hrun & Hadded).
  assert (ensure_index encode documents fuel s
          = (Ok tt, with_collection s added,
             [Print [lit "📚 Index üres, dokumentumok feldolgozása..."];
              Print [lit "✅ Index létrehozva."]])) as ->.
  { unfold ensure_index. unfold bind at 1, get_state. rewrite Hempty.
    change (len (map entry_id []) =? 0) with true. cbv iota.
    unfold bind at 1, print at 1, emit.
    unfold bind at 1, lift_result at 1. rewrite Hload.
    unfold bind at 1. rewrite Hrun. rewrite Hempty. reflexivity. }
  split; [reflexivity|]. intros e. simpl. apply Hadded.
Qed.

Lemma ensure_index_stores_named_text_witness :
  {| entry_id := lit "town.txt" ++ lit "_" ++ py_str 0;
     entry_document := lit "town.txt" ++ lit ": " ++ lit "Main Street has three potholes.";
     entry_metadata := {[ lit "source" := lit "town.txt" ]};
     entry_embedding := tt |}
  ∈ collection (state_of (ensure_index no_embedding (take 1 town_folder) 31
                            fresh_process)).
Proof.
  apply (proj2 (ensure_index_stores_named_text no_embedding (take 1 town_folder) 31
                  fresh_process
                  [{| name := lit "town.txt";
                      content := lit "Main Street has three potholes." |}]
                  eq_refl eq_refl
                  ltac:(repeat constructor; vm_compute; lia))).
  exists {| name := lit "town.txt"; content := lit "Main Street has three potholes." |},
    [lit "Main Street has three potholes."], 0%nat,
    (lit "Main Street has three potholes.").
  repeat split. apply list_elem_of_here.
Defined.

(** ** Answering *)

Lemma prompt_template_shape (context history_context question : pystr) :
  prompt_template context history_context question
  = prompt_head ++ context ++ prompt_history_label ++ history_context
    ++ prompt_question_label ++ question ++ prompt_tail.
Proof.
  unfold prompt_template, prompt_head, prompt_history_label,
    prompt_question_label, prompt_tail.
  rewrite <- !app_assoc. reflexivity.
Qed.

Section Answering.
Context {emb : Type}.
Variable encode : pystr -> emb.
Variable collection_query : list (entry emb) -> emb -> Z -> option (list (list pystr)).
Variable requests_post : pystr -> generate_request -> Z -> post_outcome.
Variable env_OLLAMA_HOST : option pystr.

Local Abbreviation search := (search_relevant_chunks encode collection_query).
Local Abbreviation ask := (ask_ollama encode collection_query requests_post env_OLLAMA_HOST).

(** One run of [ask_ollama], case by case on what the backend does. *)
Lemma ask_ollama_run question (s : state emb) :
  exists url model msg,
    let chunks :=
      match collection_query (collection s) (encode question) 6 with
      | Some (first :: _) => first
      | _ => []
      end in
    let history_context :=
      py_join nl (map render_turn
                    (py_slice (conversation_history s) (Some (-5)) None)) in
    let body :=
      {| model := model;
         prompt := prompt_template (py_join (nl ++ nl) chunks) history_context question;
         stream := false |} in
    ask question s =
    match requests_post url body 120 with
    | PostRaises e => (Raise e, s, [HttpPost url body 120])
    | PostResponds r =>
      if negb (status_code r =? 200)
      then (Ok api_error_message, s,
            [HttpPost url body 120; Print [msg; text r]])
      else match json r with
           | None => (Raise JSONDecodeError, s, [HttpPost url body 120])
           | Some data =>
             match generated_text data with
             | None => (Raise AttributeError, s, [HttpPost url body 120])
             | Some generated =>
               (Ok (answer_of generated),
                with_history s
                  (conversation_history s
                   ++ [{| user := question; bot := answer_of generated |}]),
                [HttpPost url body 120])
             end
           end
    end.
Proof.
  exists (OLLAMA_HOST env_OLLAMA_HOST ++ lit "/api/generate"),
    (lit "llama3:8b-instruct-q4_0"), (lit "⚠️ Ollama API hiba:").
  cbv [ask_ollama bind search_relevant_chunks get_state ret post emit
       lift_result response_json value_get value_strip print
       conversation_history_append generated_text answer_of].
  destruct (requests_post _ _ _) as [e|r]; [reflexivity|].
  destruct (negb (status_code r =? 200)); [reflexivity|].
  destruct (json r) as [data|]; [|reflexivity].
  destruct data as [| | | | |items|fields]; try reflexivity.
  destruct (fields !! lit "response") as [value|]; [|reflexivity].
  destruct value; reflexivity.
Qed.

(** Every run starts with the one call of the backend; what follows in the
    trace is at most a [print]. *)
Lemma ask_ollama_trace question (s : state emb) :
  exists url body rest,
    prompt body
    = prompt_template
        (py_join (nl ++ nl)
           match collection_query (collection s) (encode question) 6 with
           | Some (first :: _) => first
           | _ => []
           end)
        (py_join nl (map render_turn
                       (py_slice (conversation_history s) (Some (-5)) None)))
        question
    /\ stream body = false
    /\ trace_of (ask question s) = HttpPost url body 120 :: rest
    /\ forallb (fun e => negb (is_http_post e)) rest = true
    /\ ask question s =
       match requests_post url body 120 with
       | PostRaises e => (Raise e, s, [HttpPost url body 120])
       | PostResponds r =>
         if negb (status_code r =? 200)
         then (Ok api_error_message, s, HttpPost url body 120 :: rest)
         else match json r with
              | None => (Raise JSONDecodeError, s, [HttpPost url body 120])
              | Some data =>
                match generated_text data with
                | None => (Raise AttributeError, s, [HttpPost url body 120])
                | Some generated =>
                  (Ok (answer_of generated),
                   with_history s
                     (conversation_history s
                      ++ [{| user := question; bot := answer_of generated |}]),
                   [HttpPost url body 120])
                end
              end
       end.
Proof.
  destruct (ask_ollama_run question s) as (url & model & msg & Hrun).
  simpl in Hrun.
  set (body := {| model := model; prompt := _; stream := false |}) in *.
  exists url, body.
  destruct (requests_post url body 120) as [e|r] eqn:Hpost.
  - exists []. rewrite Hrun. by repeat split.
  - destruct (negb (status_code r =? 200)) eqn:Hstatus.
    + exists [Print [msg; text r]]. rewrite Hrun. by repeat split.
    + exists []. rewrite Hrun.
      destruct (json r) as [data|]; [|by repeat split].
      destruct (generated_text data); by repeat split.
Qed.

(** The request a run has sent is the one its outcome depends on. *)
Lemma ask_ollama_sent question (s : state emb) url body timeout :
  HttpPost url body timeout ∈ trace_of (ask question s) ->
  ask question s =
  match requests_post url body timeout with
  | PostRaises e => (Raise e, s, [HttpPost url body timeout])
  | PostResponds r =>
    if negb (status_code r =? 200)
    then (Ok api_error_message, s, trace_of (ask question s))
    else match json r with
         | None => (Raise JSONDecodeError, s, [HttpPost url body timeout])
         | Some data =>
           match generated_text data with
           | None => (Raise AttributeError, s, [HttpPost url body timeout])
           | Some generated =>
             (Ok (answer_of generated),
              with_history s
                (conversation_history s
                 ++ [{| user := question; bot := answer_of generated |}]),
              [HttpPost url body timeout])
           end
         end
  end.
Proof.
  intros Hsent.
  destruct (ask_ollama_trace question s)
    as (url' & body' & rest & _ & _ & Htrace & Hrest & Hrun).
  rewrite Htrace in Hsent. apply elem_of_cons in Hsent as [Heq|Hin].
  - inversion Heq; subst. rewrite Htrace. rewrite Hrun at 1.
    destruct (requests_post url' body' 120) as [e|r]; [done|].
    by destruct (negb (status_code r =? 200)).
  - apply list_elem_of_In in Hin. rewrite forallb_forall in Hrest.
    by apply Hrest in Hin.
Qed.

(** A failure of the transport is not handled: what [requests.post] raises
    is what [ask_ollama] raises, with the globals untouched. *)
Lemma ask_ollama_transport_failure question (s : state emb)
    url body timeout (e : exn) :
  HttpPost url body timeout ∈ trace_of (ask question s) ->
  requests_post url body timeout = PostRaises e ->
  result_of (ask question s) = Raise e /\ state_of (ask question s) = s.
Proof.
  intros Hsent Hraise. rewrite (ask_ollama_sent _ _ _ _ _ Hsent), Hraise. done.
Qed.

(** C1 (as the code has it): when the generation backend answers the request
    of [ask_ollama] with a status other than 200, which covers every non-2xx
    response, [ask_ollama] returns the fixed fallback message and does not
    raise. *)
Theorem ask_ollama_non_200_fallback question (s : state emb)
    url body timeout (r : response) :
  HttpPost url body timeout ∈ trace_of (ask question s) ->
  requests_post url body timeout = PostResponds r ->
  status_code r <> 200 ->
  result_of (ask question s) = Ok api_error_message.
Proof.
  intros Hsent Hresp Hstatus.
  rewrite (ask_ollama_sent _ _ _ _ _ Hsent), Hresp.
  destruct (Z.eqb_spec (status_code r) 200); [done|]. reflexivity.
Qed.

Lemma answer_of_blank (generated : pystr) :
  py_strip generated = [] -> answer_of generated = empty_answer_message.
Proof. intros Hempty. unfold answer_of. rewrite Hempty. reflexivity. Qed.

(** C3 (as the code has it): what a call does to Conversation Memory, for
    every outcome of the request it has sent. Nothing is appended, and the
    globals are as before, when the request raises, when the status is not
    200 (the fallback message is returned), and when a 200 response has a
    body that is not JSON, is not an object, or holds under "response" a
    value that is not a string (these three raise). One turn, the question
    with the answer returned, is appended exactly when a 200 response has
    an object for body whose "response" is missing or a string; the answer
    is the trimmed string, or the empty-answer fallback when the trimmed
    string is empty or the key is missing. *)
Theorem ask_ollama_memory question (s : state emb) url body timeout :
  HttpPost url body timeout ∈ trace_of (ask question s) ->
  let run := ask question s in
  let recorded (answer : pystr) :=
    result_of run = Ok answer
    /\ state_of run
       = with_history s
           (conversation_history s ++ [{| user := question; bot := answer |}]) in
  (forall e, requests_post url body timeout = PostRaises e ->
     result_of run = Raise e /\ state_of run = s)
  /\ (forall r, requests_post url body timeout = PostResponds r ->
      (status_code r <> 200 ->
         result_of run = Ok api_error_message /\ state_of run = s)
      /\ (status_code r = 200 -> json r = None ->
         result_of run = Raise JSONDecodeError /\ state_of run = s)
      /\ (forall data, status_code r = 200 -> json r = Some data ->
         (forall fields, data <> PyDict fields) ->
         result_of run = Raise AttributeError /\ state_of run = s)
      /\ (forall fields value, status_code r = 200 ->
         json r = Some (PyDict fields) ->
         fields !! lit "response" = Some value ->
         (forall generated, value <> PyStr generated) ->
         result_of run = Raise AttributeError /\ state_of run = s)
      /\ (forall fields, status_code r = 200 ->
         json r = Some (PyDict fields) ->
         fields !! lit "response" = None ->
         recorded empty_answer_message)
      /\ (forall fields generated, status_code r = 200 ->
         json r = Some (PyDict fields) ->
         fields !! lit "response" = Some (PyStr generated) ->
         recorded (py_or (py_strip generated) empty_answer_message)
         /\ (py_strip generated = [] ->
             recorded empty_answer_message)))
  /\ (conversation_history (state_of run) <> conversation_history s ->
      exists r fields,
        requests_post url body timeout = PostResponds r
        /\ status_code r = 200
        /\ json r = Some (PyDict fields)
        /\ (fields !! lit "response" = None
            \/ exists generated, fields !! lit "response" = Some (PyStr generated))).
Proof.
  intros Hsent run recorded.
  pose proof (ask_ollama_sent _ _ _ _ _ Hsent) as Hrun. fold run in Hrun.
  set (key := lit "response") in *.
  assert (forall res st tr, run = (res, st, tr) ->
            result_of run = res /\ state_of run = st) as Hparts
    by (by intros res st tr ->).
  assert (forall res tr, run = (res, s, tr) ->
            conversation_history (state_of run) <> conversation_history s ->
            False) as Hsame
    by (intros res tr ->; by intros []).
  clearbody run.
  destruct (requests_post url body timeout) as [e|r].
  { split; [intros ? [= <-]; exact (Hparts _ _ _ Hrun)|].
    split; [done|]. intros Hne. by destruct (Hsame _ _ Hrun). }
  split; [done|].
  destruct (Z.eqb_spec (status_code r) 200) as [Hstatus|Hstatus];
    cbn [negb] in Hrun.
  2:{ split; [|intros Hne; by destruct (Hsame _ _ Hrun)].
      intros ? [= <-]. split; [intros _; exact (Hparts _ _ _ Hrun)|].
      repeat split; intros; done. }
  destruct (json r) as [data|] eqn:Hjson.
  2:{ split; [|intros Hne; by destruct (Hsame _ _ Hrun)].
      intros ? [= <-]. split; [done|].
      split; [intros _ _; exact (Hparts _ _ _ Hrun)|].
      repeat split; intros; congruence. }
  destruct (generated_text data) as [generated|] eqn:Htext.
  - destruct data as [| | | | |items|fields]; try done.
    unfold generated_text in Htext. fold key in Htext.
    destruct (Hparts _ _ _ Hrun) as [Hres Hst].
    split.
    + intros ? [= <-]. split; [done|]. split; [intros; congruence|].
      split; [|split; [|split]].
      * intros data' _ Hj Hnot. rewrite Hjson in Hj. injection Hj as <-.
        by destruct (Hnot fields).
      * intros fields' value _ Hj Hvalue Hnot. rewrite Hjson in Hj.
        injection Hj as <-. rewrite Hvalue in Htext.
        destruct value as [| | | |text'| |]; try done. by destruct (Hnot text').
      * intros fields' _ Hj Hvalue. rewrite Hjson in Hj. injection Hj as <-.
        rewrite Hvalue in Htext. injection Htext as <-.
        rewrite (answer_of_blank [] eq_refl) in Hres, Hst.
        unfold recorded. split; [exact Hres | exact Hst].
      * intros fields' generated' _ Hj Hvalue. rewrite Hjson in Hj.
        injection Hj as <-. rewrite Hvalue in Htext. injection Htext as <-.
        split; [split; [exact Hres | exact Hst]|]. intros Hempty.
        rewrite (answer_of_blank _ Hempty) in Hres, Hst.
        unfold recorded. split; [exact Hres | exact Hst].
    + intros _. exists r, fields. repeat split; [done..|].
      destruct (fields !! key) as [value|]; [|by left].
      destruct value; try done. right. by eexists.
  - split; [|intros Hne; by destruct (Hsame _ _ Hrun)].
    destruct (Hparts _ _ _ Hrun) as [Hres Hst].
    intros ? [= <-]. split; [done|]. split; [intros; congruence|].
    split; [|split; [|split]].
    + by intros.
    + by intros.
    + intros fields _ Hj Hvalue. rewrite Hjson in Hj. injection Hj as ->.
      unfold generated_text in Htext. fold key in Htext.
      by rewrite Hvalue in Htext.
    + intros fields generated' _ Hj Hvalue. rewrite Hjson in Hj.
      injection Hj as ->.
      unfold generated_text in Htext. fold key in Htext.
      by rewrite Hvalue in Htext.
Qed.

Lemma py_join_cons {A} (sep first : list A) (more : list (list A)) :
  py_join sep (first :: more) = first ++ concat (map (fun p => sep ++ p) more).
Proof.
  revert first. induction more as [|p more IH]; intros first.
  - simpl. by rewrite app_nil_r.
  - change (py_join sep (first :: p :: more))
      with (first ++ sep ++ py_join sep (p :: more)).
    rewrite IH. simpl. by rewrite <- app_assoc.
Qed.

Lemma py_join_spelled {A} (sep : list A) (parts : list (list A)) :
  py_join sep parts
  = match parts with
    | [] => []
    | first :: more => first ++ concat (map (fun p => sep ++ p) more)
    end.
Proof. destruct parts; [done | apply py_join_cons]. Qed.

(** C8: the prompt posted to the backend is, between fixed texts and in this
    order: the passages retrieved for the question, one after the other
    with a blank line (two newlines) between two of them; the last five
    turns of the history, each as the line [Felhasználó: ] with the
    question and the line [Asszisztens: ] with the answer, one newline
    between two turns; the question. The call is made once whatever was
    retrieved, with an empty passage part when nothing was; and a 200 answer
    with a generated text is recorded and returned whatever was retrieved. *)
Theorem ask_ollama_prompt_order question (s : state emb) :
  let chunks :=
    match collection_query (collection s) (encode question) 6 with
    | Some (first :: _) => first
    | _ => []
    end in
  let passages :=
    match chunks with
    | [] => []
    | first :: more => first ++ concat (map (fun p => [10; 10]%N ++ p) more)
    end in
  let recent :=
    drop (length (conversation_history s) - 5) (conversation_history s) in
  let pairs :=
    map (fun t =>
           [70; 101; 108; 104; 97; 115; 122; 110; 225; 108; 243; 58; 32]%N
           ++ user t ++ [10]%N
           ++ [65; 115; 115; 122; 105; 115; 122; 116; 101; 110; 115; 58; 32]%N
           ++ bot t)
        recent in
  let history :=
    match pairs with
    | [] => []
    | first :: more => first ++ concat (map (fun p => [10]%N ++ p) more)
    end in
  exists url body rest,
    trace_of (ask question s) = HttpPost url body 120 :: rest
    /\ forallb (fun e => negb (is_http_post e)) rest = true
    /\ prompt body
       = prompt_head ++ passages ++ prompt_history_label ++ history
         ++ prompt_question_label ++ question ++ prompt_tail
    /\ (chunks = [] ->
        prompt body
        = prompt_head ++ prompt_history_label ++ history
          ++ prompt_question_label ++ question ++ prompt_tail)
    /\ forall r fields generated,
        requests_post url body 120 = PostResponds r ->
        status_code r = 200 ->
        json r = Some (PyDict fields) ->
        fields !! lit "response" = Some (PyStr generated) ->
        result_of (ask question s)
        = Ok (py_or (py_strip generated) empty_answer_message)
        /\ conversation_history (state_of (ask question s))
           = conversation_history s
             ++ [{| user := question;
                    bot := py_or (py_strip generated) empty_answer_message |}].
Proof.
  intros chunks passages recent pairs history.
  destruct (ask_ollama_trace question s)
    as (url & body & rest & Hprompt & _ & Htrace & Hrest & Hrun).
  exists url, body, rest.
  change (Some (-5)) with (Some (- Z.of_nat 5)) in Hprompt.
  rewrite prompt_template_shape, !py_join_spelled, py_slice_last in Hprompt by lia.
  fold chunks recent in Hprompt.
  assert (prompt body
          = prompt_head ++ passages ++ prompt_history_label ++ history
            ++ prompt_question_label ++ question ++ prompt_tail) as Hspelled
    by exact Hprompt.
  split; [done|]. split; [done|]. split; [done|]. split.
  - intros Hnone. rewrite Hspelled. unfold passages. rewrite Hnone. reflexivity.
  - intros r fields generated Hresp Hstatus Hjson Hvalue.
    rewrite Hrun, Hresp, Hstatus, Hjson.
    change (negb (200 =? 200)) with false. cbv iota.
    unfold generated_text. rewrite Hvalue. unfold answer_of.
    split; reflexivity.
Qed.
End Answering.

(** ** The start-once trigger *)

Section StartGuard.
Context {emb : Type}.

(** A caller running alone takes the steps of [ensure_index_background]. *)
Lemma trigger_alone (s : state emb) :
  let c := run_schedule [0; 0; 0; 0]%nat
             {| callers := [AtTest]; globals := s; log := [] |} in
  callers c = [Finished]
  /\ globals c = state_of (ensure_index_background s)
  /\ log c = trace_of (ensure_index_background s).
Proof. destruct s as [[] h c]; repeat split. Qed.

Lemma run_schedule_app (a b : list nat) (c : config emb) :
  run_schedule (a ++ b) c = run_schedule b (run_schedule a c).
Proof. apply fold_left_app. Qed.

Lemma sched_step_settled (c : config emb) (i : nat) :
  settled c ->
  settled (sched_step c i) /\ launches (log (sched_step c i)) = launches (log c).
Proof.
  intros [Hflag Hcallers]. unfold sched_step.
  destruct (callers c !! i) as [p|] eqn:Hp; [|by repeat split].
  assert (p = AtTest \/ p = Finished) as [-> | ->]
    by (eapply Forall_lookup_1 in Hcallers; eauto).
  - cbv [trigger_step bind get_state ret]. rewrite Hflag. simpl.
    rewrite app_nil_r. repeat split; [done|].
    apply Forall_insert; [done | by right].
  - simpl. rewrite app_nil_r. repeat split; [done|].
    apply Forall_insert; [done | by right].
Qed.

Lemma run_schedule_settled (schedule : list nat) (c : config emb) :
  settled c ->
  settled (run_schedule schedule c)
  /\ launches (log (run_schedule schedule c)) = launches (log c).
Proof.
  revert c. induction schedule as [|i schedule IH]; intros c Hc; [done|].
  destruct (sched_step_settled c i Hc) as [Hc' Hl].
  destruct (IH _ Hc') as [Hc'' Hl']. simpl. split; [done | congruence].
Qed.



(** The guard is a test of the flag followed by an assignment, and it is
    the call at import time that makes it enough. From globals with the flag
    unset, which no request meets, callers that run one after the other
    start one thread between them. *)
Lemma trigger_sequential_from_unset (s : state emb) (n : nat) :
  _index_started s = false ->
  launches (log (run_schedule (sequential (S n))
                   {| callers := replicate (S n) AtTest;
                      globals := s;
                      log := [] |})) = 1%nat.
Proof.
  intros Hs.
  change (sequential (S n))
    with ([0; 0; 0; 0]%nat ++ flat_map (fun i => replicate 4 i) (seq 1 n)).
  rewrite run_schedule_app.
  set (c1 := run_schedule [0; 0; 0; 0]%nat _).
  assert (settled c1 /\ launches (log c1) = 1%nat) as [Hc1 Hl1].
  { subst c1. destruct s as [started h c]. simpl in Hs. subst started.
    repeat split. simpl. constructor; [by right|].
    apply Forall_replicate. by left. }
  destruct (run_schedule_settled (flat_map (fun i => replicate 4 i) (seq 1 n)) c1 Hc1)
    as [_ ->].
  done.
Qed.

End StartGuard.

(** ** Conversation Memory *)




(** ** Concrete cases *)

Lemma ask_ollama_non_200_fallback_witness :
  result_of (ask_ollama no_embedding no_results (answering server_error) None
               (lit "What street has potholes?") fresh_process)
  = Ok api_error_message.
Proof.
  eapply (ask_ollama_non_200_fallback no_embedding no_results
            (answering server_error) None _ _ _ _ 120 server_error).
  - cbv. apply list_elem_of_here.
  - reflexivity.
  - simpl. lia.
Defined.

(** C1 (as claimed) fails: when the call of the backend times out,
    [ask_ollama] does not return the fallback message; the time-out is
    raised to its caller, and on from the endpoint [ask_api]. *)
Lemma ask_ollama_timeout_raises :
  result_of (ask_ollama no_embedding no_results timing_out None
               (lit "What street has potholes?") fresh_process)
  = Raise RequestTimeout
  /\ result_of (ask_ollama no_embedding no_results timing_out None
                  (lit "What street has potholes?") fresh_process)
     <> Ok api_error_message
  /\ result_of (ask_api no_embedding no_results timing_out None
                  (lit "What street has potholes?") fresh_process)
     = Raise RequestTimeout.
Proof. repeat split. discriminate. Qed.

Lemma ask_ollama_memory_witness :
  (result_of (ask_ollama no_embedding no_results timing_out None
                (lit "Q1") fresh_process)
   = Raise RequestTimeout
   /\ state_of (ask_ollama no_embedding no_results timing_out None
                  (lit "Q1") fresh_process)
      = fresh_process)
  /\ (result_of (ask_ollama no_embedding no_results (answering server_error) None
                   (lit "Q1") fresh_process)
      = Ok api_error_message
      /\ state_of (ask_ollama no_embedding no_results (answering server_error) None
                     (lit "Q1") fresh_process)
         = fresh_process)
  /\ (result_of (ask_ollama no_embedding no_results (answering html_answer) None
                   (lit "Q1") fresh_process)
      = Raise JSONDecodeError
      /\ state_of (ask_ollama no_embedding no_results (answering html_answer) None
                     (lit "Q1") fresh_process)
         = fresh_process)
  /\ (result_of (ask_ollama no_embedding no_results (answering list_answer) None
                   (lit "Q1") fresh_process)
      = Raise AttributeError
      /\ state_of (ask_ollama no_embedding no_results (answering list_answer) None
                     (lit "Q1") fresh_process)
         = fresh_process)
  /\ (result_of (ask_ollama no_embedding no_results (answering null_answer) None
                   (lit "Q1") fresh_process)
      = Raise AttributeError
      /\ state_of (ask_ollama no_embedding no_results (answering null_answer) None
                     (lit "Q1") fresh_process)
         = fresh_process)
  /\ conversation_history
       (state_of (ask_ollama no_embedding no_results (answering empty_object_answer)
                    None (lit "Q1") fresh_process))
     = [{| user := lit "Q1"; bot := empty_answer_message |}]
  /\ conversation_history
       (state_of (ask_ollama no_embedding no_results (answering blank_answer) None
                    (lit "Q1") fresh_process))
     = [{| user := lit "Q1"; bot := empty_answer_message |}]
  /\ conversation_history
       (state_of (ask_ollama no_embedding no_results (answering street_answer) None
                    (lit "Q1") fresh_process))
     = [{| user := lit "Q1"; bot := lit "Main Street." |}].
Proof.
  assert (forall backend,
            exists url body,
              HttpPost url body 120
              ∈ trace_of (ask_ollama no_embedding no_results backend None
                            (lit "Q1") fresh_process)) as Hsent.
  { intros backend.
    destruct (ask_ollama_trace no_embedding no_results backend None
                (lit "Q1") fresh_process)
      as (url & body & rest & _ & _ & Htrace & _).
    exists url, body. rewrite Htrace. apply list_elem_of_here. }
  split; [|split; [|split; [|split; [|split; [|split; [|split]]]]]].
  - destruct (Hsent timing_out) as (url & body & Hin).
    apply (proj1 (ask_ollama_memory no_embedding no_results timing_out None
                    (lit "Q1") fresh_process url body 120 Hin)
             RequestTimeout eq_refl).
  - destruct (Hsent (answering server_error)) as (url & body & Hin).
    apply (proj1 (proj1 (proj2 (ask_ollama_memory no_embedding no_results
                                  (answering server_error) None
                                  (lit "Q1") fresh_process url body 120 Hin))
                    server_error eq_refl)).
    simpl. lia.
  - destruct (Hsent (answering html_answer)) as (url & body & Hin).
    apply (proj1 (proj2 (proj1 (proj2 (ask_ollama_memory no_embedding no_results
                                  (answering html_answer) None
                                  (lit "Q1") fresh_process url body 120 Hin))
                    html_answer eq_refl)) eq_refl eq_refl).
  - destruct (Hsent (answering list_answer)) as (url & body & Hin).
    apply (proj1 (proj2 (proj2 (proj1 (proj2 (ask_ollama_memory no_embedding
                                  no_results (answering list_answer) None
                                  (lit "Q1") fresh_process url body 120 Hin))
                    list_answer eq_refl)))
             (PyList []) eq_refl eq_refl).
    discriminate.
  - destruct (Hsent (answering null_answer)) as (url & body & Hin).
    apply (proj1 (proj2 (proj2 (proj2 (proj1 (proj2 (ask_ollama_memory no_embedding
                                  no_results (answering null_answer) None
                                  (lit "Q1") fresh_process url body 120 Hin))
                    null_answer eq_refl))))
             {[ lit "response" := PyNone ]} PyNone eq_refl eq_refl
             (lookup_singleton_eq _ _)).
    discriminate.
  - destruct (Hsent (answering empty_object_answer)) as (url & body & Hin).
    destruct (proj1 (proj2 (proj2 (proj2 (proj2 (proj1 (proj2 (ask_ollama_memory
                                  no_embedding no_results
                                  (answering empty_object_answer) None
                                  (lit "Q1") fresh_process url body 120 Hin))
                    empty_object_answer eq_refl)))))
             ∅ eq_refl eq_refl (lookup_empty _)) as [_ ->].
    reflexivity.
  - destruct (Hsent (answering blank_answer)) as (url & body & Hin).
    destruct (proj2 (proj2 (proj2 (proj2 (proj2 (proj2 (proj1 (proj2
                (ask_ollama_memory no_embedding no_results
                   (answering blank_answer) None
                   (lit "Q1") fresh_process url body 120 Hin))
                    blank_answer eq_refl)))))
             {[ lit "response" := PyStr (lit "  ") ]} (lit "  ") eq_refl eq_refl
             (lookup_singleton_eq _ _)) eq_refl) as [_ ->].
    reflexivity.
  - destruct (Hsent (answering street_answer)) as (url & body & Hin).
    destruct (proj1 (proj2 (proj2 (proj2 (proj2 (proj2 (proj1 (proj2
                (ask_ollama_memory no_embedding no_results
                   (answering street_answer) None
                   (lit "Q1") fresh_process url body 120 Hin))
                    street_answer eq_refl)))))
             {[ lit "response" := PyStr (lit " Main Street. ") ]}
             (lit " Main Street. ") eq_refl eq_refl
             (lookup_singleton_eq _ _))) as [_ ->].
    vm_compute. reflexivity.
Defined.

(** C3 (as claimed) fails: a failed call of the backend appends no turn.
    After a 500 response the fallback is returned and the history is still
    empty; after a time-out nothing is returned and the history is still
    empty. *)
Lemma ask_ollama_failure_not_recorded :
  (result_of (ask_ollama no_embedding no_results (answering server_error) None
                (lit "Q1") fresh_process)
   = Ok api_error_message
   /\ conversation_history
        (state_of (ask_ollama no_embedding no_results (answering server_error) None
                     (lit "Q1") fresh_process))
      = [])
  /\ (result_of (ask_ollama no_embedding no_results timing_out None
                   (lit "Q1") fresh_process)
      = Raise RequestTimeout
      /\ conversation_history
           (state_of (ask_ollama no_embedding no_results timing_out None
                        (lit "Q1") fresh_process))
         = []).
Proof. repeat split. Qed.

Lemma ask_ollama_prompt_order_witness :
  (exists url body rest,
     trace_of (ask_ollama no_embedding two_passages (answering street_answer) None
                 (lit "What street has potholes?") chatted)
     = HttpPost url body 120 :: rest
     /\ prompt body
        = prompt_head
          ++ lit "town.txt: Main Street has three potholes."
          ++ [10; 10]%N
          ++ lit "park.txt: The park opens at nine."
          ++ prompt_history_label
          ++ lit "Felhasználó: Q2" ++ [10]%N ++ lit "Asszisztens: A2" ++ [10]%N
          ++ lit "Felhasználó: Q3" ++ [10]%N ++ lit "Asszisztens: A3" ++ [10]%N
          ++ lit "Felhasználó: Q4" ++ [10]%N ++ lit "Asszisztens: A4" ++ [10]%N
          ++ lit "Felhasználó: Q5" ++ [10]%N ++ lit "Asszisztens: A5" ++ [10]%N
          ++ lit "Felhasználó: Q6" ++ [10]%N ++ lit "Asszisztens: A6"
          ++ prompt_question_label
          ++ lit "What street has potholes?"
          ++ prompt_tail
     /\ result_of (ask_ollama no_embedding two_passages (answering street_answer)
                     None (lit "What street has potholes?") chatted)
        = Ok (lit "Main Street."))
  /\ (exists url body rest,
       trace_of (ask_ollama no_embedding no_results (answering blank_answer) None
                   (lit "What street has potholes?") fresh_process)
       = HttpPost url body 120 :: rest
       /\ prompt body
          = prompt_head ++ prompt_history_label ++ prompt_question_label
            ++ lit "What street has potholes?" ++ prompt_tail).
Proof.
  split.
  - destruct (ask_ollama_prompt_order no_embedding two_passages
                (answering street_answer) None
                (lit "What street has potholes?") chatted)
      as (url & body & rest & Htrace & _ & Hprompt & _ & Hanswer).
    exists url, body, rest. split; [exact Htrace|]. split.
    + rewrite Hprompt. vm_compute. reflexivity.
    + destruct (Hanswer street_answer
                  {[ lit "response" := PyStr (lit " Main Street. ") ]}
                  (lit " Main Street. ") eq_refl eq_refl eq_refl
                  (lookup_singleton_eq _ _)) as [-> _].
      vm_compute. reflexivity.
  - destruct (ask_ollama_prompt_order no_embedding no_results
                (answering blank_answer) None
                (lit "What street has potholes?") fresh_process)
      as (url & body & rest & Htrace & _ & _ & Hempty & _).
    exists url, body, rest. split; [exact Htrace|].
    rewrite (Hempty eq_refl). vm_compute. reflexivity.
Defined.

(** Why the call at import time matters: from globals with the flag unset,
    which no request meets, two callers whose steps interleave both pass the
    test before either assigns, and two threads are started. *)
Lemma trigger_interleaved_from_unset :
  let c0 := {| callers := [AtTest; AtTest];
               globals := initial_state ([] : list (entry unit));
               log := [] |} in
  callers (run_schedule [0; 1]%nat c0) = [AtSet; AtSet]
  /\ launches (log (run_schedule [0; 1; 0; 1; 0; 1; 0; 1]%nat c0)) = 2%nat.
Proof. split; reflexivity. Qed.

(** * Further properties *)

(** ** Chunker: when it returns, how many chunks, which ones *)

(** [chunk_text] returns exactly when the text is empty or the offset
    advances. *)
Theorem chunk_text_returns_iff (text : pystr) (chunk_size overlap : Z) :
  (exists fuel chunks, chunk_text fuel text chunk_size overlap = Some chunks)
  <-> text = [] \/ overlap < chunk_size.
Proof.
  split.
  - intros (fuel & chunks & Hrun).
    destruct (decide (text = [])) as [|Hne]; [by left|]. right.
    destruct (Z.lt_ge_cases overlap chunk_size) as [|Hge]; [done|].
    rewrite chunk_text_unguarded in Hrun by done. discriminate.
  - intros [-> | Hstep].
    + by exists 0%nat, [].
    + destruct (chunk_loop_terminates text chunk_size overlap (length text) [] 0 Hstep)
        as [chunks Hrun]; [unfold len; lia|].
      by exists (length text), chunks.
Qed.

(** For any advancing offset, also with a negative overlap: chunk [i] exists
    exactly when offset [i * step] lies in the text, and is the window cut
    there. *)
Lemma chunk_text_lookup (fuel : nat) (text : pystr) (chunk_size overlap : Z)
    (chunks : list pystr) :
  overlap < chunk_size ->
  chunk_text fuel text chunk_size overlap = Some chunks ->
  len text <= len chunks * (chunk_size - overlap)
  /\ forall (i : nat) c,
      chunks !! i = Some c
      <-> Z.of_nat i * (chunk_size - overlap) < len text
          /\ c = window text chunk_size (Z.of_nat i * (chunk_size - overlap)).
Proof.
  intros Hstep Hrun.
  set (Inv := fun (chunks : list pystr) (start : Z) =>
       start = len chunks * (chunk_size - overlap)
       /\ forall (i : nat) c, chunks !! i = Some c ->
            Z.of_nat i * (chunk_size - overlap) < len text
            /\ c = window text chunk_size (Z.of_nat i * (chunk_size - overlap))).
  assert (forall cs start, Inv cs start -> start < len text ->
            Inv (cs ++ [window text chunk_size start])
                (start + (chunk_size - overlap))) as Hkeep.
  { intros cs start [Hs Hw] Hlt. split.
    - rewrite len_app. unfold len at 2. simpl. lia.
    - intros i c Hi. apply lookup_app_Some in Hi as [Hi|[Hlen Hi]]; [by apply Hw|].
      apply list_lookup_singleton_Some in Hi as [Hi <-].
      assert (Z.of_nat i * (chunk_size - overlap) = start) as ->
        by (unfold len in Hs; nia).
      done. }
  assert (Inv [] 0) as Hinit.
  { split; [done|]. intros i c Hi. by rewrite lookup_nil in Hi. }
  destruct (chunk_loop_invariant text chunk_size overlap Inv Hkeep
              fuel [] 0 chunks Hinit Hrun)
    as (start' & (Hstart & Hwin) & Hexit).
  split; [lia|]. intros i c. split; [apply Hwin|].
  intros [Hlt ->].
  destruct (lookup_lt_is_Some_2 chunks i) as [c Hc].
  { unfold len in *. nia. }
  rewrite Hc. f_equal. by apply Hwin.
Qed.

(** The number of chunks is the text length divided by the step, rounded
    up. *)
Theorem chunk_text_count (fuel : nat) (text : pystr) (chunk_size overlap : Z)
    (chunks : list pystr) :
  overlap < chunk_size ->
  chunk_text fuel text chunk_size overlap = Some chunks ->
  len chunks
  = (len text + (chunk_size - overlap) - 1) / (chunk_size - overlap).
Proof.
  intros Hstep Hrun.
  destruct (chunk_text_lookup fuel text chunk_size overlap chunks Hstep Hrun)
    as [Hcover Hlookup].
  assert (chunks = [] \/ (len chunks - 1) * (chunk_size - overlap) < len text)
    as Hlast.
  { destruct chunks as [|c cs _] using rev_ind; [by left|]. right.
    destruct (proj1 (Hlookup (length cs) c)) as [Hlt _].
    - by rewrite lookup_app_r, Nat.sub_diag by lia.
    - rewrite len_app. unfold len in *. simpl. lia. }
  pose proof (len_nonneg text) as Htext.
  apply Z.div_unique with
    (r := len text + (chunk_size - overlap) - 1 - (chunk_size - overlap) * len chunks);
    [|lia].
  left. destruct Hlast as [-> | Hlast].
  - unfold len in *. simpl in *. lia.
  - lia.
Qed.

Lemma chunk_text_count_witness :
  len [lit "abcdefghij"; lit "fghijkl"; lit "kl"]
  = (len (lit "abcdefghijkl") + (10 - 5) - 1) / (10 - 5).
Proof.
  apply (chunk_text_count 12 (lit "abcdefghijkl") 10 5); [lia|].
  vm_compute. reflexivity.
Defined.

(** The only chunk is the whole text exactly when the text is not empty and
    no longer than the step. *)
Theorem chunk_text_single_chunk (text : pystr) (chunk_size overlap : Z) :
  0 <= overlap -> overlap < chunk_size ->
  (exists fuel, chunk_text fuel text chunk_size overlap = Some [text])
  <-> 0 < len text <= chunk_size - overlap.
Proof.
  intros Hov Hstep. split.
  - intros [fuel Hrun].
    destruct (chunk_text_lookup fuel text chunk_size overlap [text] Hstep Hrun)
      as [Hcover Hlookup].
    destruct (proj1 (Hlookup 0%nat text) eq_refl) as [Hlt _].
    unfold len in Hcover at 2. simpl in *. lia.
  - intros [Hpos Hshort].
    destruct (chunk_loop_terminates text chunk_size overlap (length text) [] 0 Hstep)
      as [chunks Hrun]; [unfold len; lia|].
    exists (length text). fold (chunk_text (length text) text chunk_size overlap) in Hrun.
    rewrite Hrun. f_equal.
    destruct (chunk_text_lookup _ text chunk_size overlap chunks Hstep Hrun)
      as [_ Hlookup].
    assert (chunks !! 0%nat = Some text) as H0.
    { apply Hlookup. split; [lia|]. unfold window. simpl.
      rewrite py_slice_window by lia. rewrite drop_0, take_ge; [done|].
      unfold len in *. lia. }
    destruct chunks as [|c [|c' rest]]; [done | by inversion H0 |].
    destruct (proj1 (Hlookup 1%nat c') eq_refl) as [Hlt _]. lia.
Qed.

Lemma chunk_text_single_chunk_witness :
  exists fuel, chunk_text fuel (lit "abcde") 10 5 = Some [lit "abcde"].
Proof.
  apply (proj2 (chunk_text_single_chunk (lit "abcde") 10 5 ltac:(lia) ltac:(lia))).
  vm_compute. split; [reflexivity | discriminate].
Defined.

(** A text no longer than a chunk is cut into tails of itself: chunk [i] is
    the text without its first [i * step] characters; when the text is
    longer than the step, the whole text is followed by at least one such
    tail, which repeats what the first chunk already holds. *)
Theorem chunk_text_short_text_tails (fuel : nat) (text : pystr)
    (chunk_size overlap : Z) (chunks : list pystr) :
  0 <= overlap -> overlap < chunk_size ->
  len text <= chunk_size ->
  chunk_text fuel text chunk_size overlap = Some chunks ->
  (forall (i : nat) c, chunks !! i = Some c ->
      c = drop (i * Z.to_nat (chunk_size - overlap)) text)
  /\ (chunk_size - overlap < len text ->
      exists rest,
        chunks = text :: drop (Z.to_nat (chunk_size - overlap)) text :: rest).
Proof.
  intros Hov Hstep Hfit Hrun.
  destruct (chunk_text_lookup fuel text chunk_size overlap chunks Hstep Hrun)
    as [Hcover Hlookup].
  assert (forall (i : nat) c, chunks !! i = Some c ->
            c = drop (i * Z.to_nat (chunk_size - overlap)) text) as Htails.
  { intros i c Hi. destruct (proj1 (Hlookup i c) Hi) as [Hlt ->].
    unfold window. rewrite py_slice_window by nia.
    rewrite take_ge by (rewrite length_drop; unfold len in *; lia).
    f_equal. nia. }
  split; [done|]. intros Hlong.
  destruct chunks as [|c0 [|c1 rest]].
  - unfold len in Hcover at 2. simpl in Hcover. lia.
  - unfold len in Hcover at 2. simpl in Hcover. lia.
  - exists rest. rewrite (Htails 0%nat c0 eq_refl), (Htails 1%nat c1 eq_refl).
    simpl. by rewrite Nat.add_0_r.
Qed.

Lemma chunk_text_short_text_tails_witness :
  exists rest,
    [lit "abcdefgh"; lit "fgh"] = lit "abcdefgh" :: drop (Z.to_nat (10 - 5)) (lit "abcdefgh") :: rest.
Proof.
  apply (proj2 (chunk_text_short_text_tails 8 (lit "abcdefgh") 10 5
                  [lit "abcdefgh"; lit "fgh"]
                  ltac:(lia) ltac:(lia) ltac:(vm_compute; discriminate) eq_refl)).
  reflexivity.
Defined.

(** A negative overlap is accepted and leaves gaps between the windows: the
    chunks together hold fewer characters than a text longer than one
    chunk. *)
Theorem chunk_text_negative_overlap_drops (fuel : nat) (text : pystr)
    (chunk_size overlap : Z) (chunks : list pystr) :
  overlap < 0 -> 0 < chunk_size -> chunk_size < len text ->
  chunk_text fuel text chunk_size overlap = Some chunks ->
  len (concat chunks) < len text.
Proof.
  intros Hneg Hsize Hlong Hrun.
  set (Inv := fun (cs : list pystr) (start : Z) =>
       start = len cs * (chunk_size - overlap)
       /\ (cs <> [] ->
           len (concat cs) + (len cs - 1) * (- overlap)
           <= Z.min (len text) (start + overlap))).
  assert (forall cs start, Inv cs start -> start < len text ->
            Inv (cs ++ [window text chunk_size start])
                (start + (chunk_size - overlap))) as Hkeep.
  { intros cs start [Hs Hsum] Hlt.
    assert (0 <= start) by (pose proof (len_nonneg cs); nia).
    assert (len (cs ++ [window text chunk_size start]) = len cs + 1) as Hlen
      by (rewrite len_app; unfold len at 2; simpl; lia).
    split; [lia|]. intros _.
    assert (len (concat (cs ++ [window text chunk_size start]))
            = len (concat cs) + Z.min chunk_size (len text - start)) as ->.
    { rewrite concat_app, len_app. simpl. rewrite app_nil_r.
      rewrite window_length by lia. lia. }
    rewrite Hlen.
    destruct (decide (cs = [])) as [->|Hne].
    - unfold len in Hs. simpl in Hs. subst start.
      change (len (concat [])) with 0. change (len []) with 0. lia.
    - specialize (Hsum Hne). lia. }
  assert (Inv [] 0) as Hinit by (split; [done|done]).
  destruct (chunk_loop_invariant text chunk_size overlap Inv Hkeep
              fuel [] 0 chunks Hinit Hrun)
    as (start' & (Hstart & Hsum) & Hexit).
  assert (chunks <> []) as Hne.
  { intros ->. unfold len in Hstart at 1. simpl in Hstart. lia. }
  specialize (Hsum Hne).
  assert (1 <= len chunks) by (destruct chunks; [done | unfold len; simpl; lia]).
  destruct (Z.eq_dec (len chunks) 1) as [Hone|Hmore]; nia.
Qed.

Lemma chunk_text_negative_overlap_drops_witness :
  len (concat [lit "ab"; lit "de"]) < len (lit "abcdef").
Proof.
  apply (chunk_text_negative_overlap_drops 6 (lit "abcdef") 2 (-1)).
  - lia.
  - lia.
  - vm_compute. reflexivity.
  - vm_compute. reflexivity.
Defined.

(** ** Document Loader: which files count, what a Document holds *)

Lemma load_loop_filter (f : folder) (docs : list document) :
  load_loop (List.filter is_txt f) docs = load_loop f docs.
Proof.
  revert docs. induction f as [|[filename r] f IH]; intros docs; [done|].
  simpl. unfold is_txt at 1. simpl.
  destruct (py_endswith filename (lit ".txt")) eqn:Htxt; simpl.
  - rewrite Htxt. destruct r; [apply IH | done].
  - apply IH.
Qed.

(** Entries whose name does not end in [.txt] play no part, readable or
    not. *)
Theorem load_documents_only_txt (f : folder) :
  load_documents f = load_documents (List.filter is_txt f).
Proof. unfold load_documents. by rewrite load_loop_filter. Qed.

Lemma load_loop_ok (f : folder) (docs0 docs : list document) :
  load_loop f docs0 = Ok docs ->
  all_readable f /\ docs = docs0 ++ readable_documents f.
Proof.
  revert docs0. induction f as [|[filename r] f IH]; intros docs0 Hrun; simpl in Hrun.
  - inversion Hrun. split; [constructor | by rewrite app_nil_r].
  - unfold readable_documents, all_readable, document_of, is_txt in *. simpl.
    destruct (py_endswith filename (lit ".txt")) eqn:Htxt.
    + destruct r as [data|e]; [|done].
      destruct (IH _ Hrun) as [Hall ->]. split.
      * constructor; [|done]. simpl. intros _. by exists data.
      * simpl. by rewrite <- app_assoc.
    + destruct (IH _ Hrun) as [Hall ->]. split; [|done].
      constructor; [|done]. simpl. by rewrite Htxt.
Qed.

Lemma load_loop_total (f : folder) (docs0 : list document) :
  load_loop f docs0 <> OutOfFuel.
Proof.
  revert docs0. induction f as [|[filename r] f IH]; intros docs0; simpl; [done|].
  destruct (py_endswith filename (lit ".txt")); [|apply IH].
  destruct r; [apply IH | done].
Qed.

Lemma load_documents_unreadable (f : folder) :
  ~ all_readable f -> exists e, load_documents f = Raise e.
Proof.
  intros Hnot. destruct (load_documents f) as [docs|e|] eqn:Hrun.
  - destruct (load_loop_ok f [] docs Hrun) as [Hall _]. done.
  - by exists e.
  - by apply load_loop_total in Hrun.
Qed.

(** [load_documents] returns exactly when every text file of the folder can
    be read, and then with one Document per text file, in listing order;
    otherwise it raises. *)
Theorem load_documents_returns_iff (f : folder) (docs : list document) :
  (load_documents f = Ok docs <-> all_readable f /\ docs = readable_documents f)
  /\ (~ all_readable f <-> exists e, load_documents f = Raise e).
Proof.
  split; split.
  - intros Hrun. by destruct (load_loop_ok f [] docs Hrun) as [Hall ->].
  - intros [Hall ->]. unfold load_documents.
    rewrite <- (app_nil_r f) at 1. by rewrite load_loop_readable.
  - apply load_documents_unreadable.
  - intros [e Hrun] Hall. unfold load_documents in Hrun.
    rewrite <- (app_nil_r f) in Hrun at 1.
    by rewrite load_loop_readable in Hrun.
Qed.

Lemma loaded_document (f : folder) (docs : list document) (d : document) :
  load_documents f = Ok docs -> d ∈ docs ->
  py_endswith (name d) (lit ".txt") = true
  /\ exists data, (name d, ReadOk data) ∈ f /\ content d = normalise data.
Proof.
  intros Hrun Hd. destruct (load_loop_ok f [] docs Hrun) as [_ ->].
  simpl in Hd. unfold readable_documents in Hd.
  apply list_elem_of_omap in Hd as ([filename r] & Hin & Hdoc).
  unfold document_of, is_txt in Hdoc. simpl in Hdoc.
  destruct (py_endswith filename (lit ".txt")) eqn:Htxt; [|done].
  destruct r as [data|]; [|done]. inversion Hdoc; subst. simpl.
  split; [done|]. by exists data.
Qed.




Lemma lit_space : lit " " = [32%N].
Proof. reflexivity. Qed.

Lemma lit_two_spaces : lit "  " = [32%N; 32%N].
Proof. reflexivity. Qed.

Lemma py_replace_from_elem (old new : pystr) (skip : nat) (s : pystr) (x : N) :
  x ∈ py_replace_from old new skip s -> x ∈ s \/ x ∈ new.
Proof.
  revert skip. induction s as [|c rest IH]; intros skip Hx.
  - simpl in Hx. by left.
  - simpl in Hx. destruct skip as [|k].
    + destruct (bool_decide (take (length old) (c :: rest) = old)).
      * apply elem_of_app in Hx as [Hx|Hx]; [by right|].
        destruct (IH _ Hx); [left; by right | by right].
      * apply elem_of_cons in Hx as [->|Hx]; [left; by left|].
        destruct (IH _ Hx); [left; by right | by right].
    + destruct (IH _ Hx); [left; by right | by right].
Qed.

Lemma py_replace_char_gone (s : pystr) (c c' : N) :
  c' <> c -> c ∉ py_replace s [c] [c'].
Proof.
  intros Hne. unfold py_replace.
  induction s as [|x rest IH]; [by intros ?%elem_of_nil|].
  cbn [py_replace_from length take Nat.sub].
  case_bool_decide as Hx.
  - intros [Hin|Hin]%elem_of_app; [|done].
    apply list_elem_of_singleton in Hin. congruence.
  - intros [->|Hin]%elem_of_cons; [|done]. by destruct Hx.
Qed.

Lemma py_lstrip_suffix (s : pystr) : py_lstrip s `suffix_of` s.
Proof.
  induction s as [|c rest IH]; [done|]. simpl.
  destruct (py_isspace c); [by apply suffix_cons_r | done].
Qed.

Lemma py_lstrip_head (s : pystr) (c : N) (rest : pystr) :
  py_lstrip s = c :: rest -> py_isspace c = false.
Proof.
  induction s as [|x s IH]; [discriminate|]. simpl.
  destruct (py_isspace x) eqn:Hx; [exact IH|]. intros [= <- _]. exact Hx.
Qed.

Lemma suffix_elem {A} (l k : list A) (x : A) : l `suffix_of` k -> x ∈ l -> x ∈ k.
Proof. intros [front ->] Hx. apply elem_of_app. by right. Qed.

Lemma py_strip_elem (s : pystr) (x : N) : x ∈ py_strip s -> x ∈ s.
Proof.
  unfold py_strip. rewrite elem_of_reverse. intros Hx.
  apply (suffix_elem _ _ _ (py_lstrip_suffix _)) in Hx.
  rewrite elem_of_reverse in Hx.
  by apply (suffix_elem _ _ _ (py_lstrip_suffix _)) in Hx.
Qed.

Lemma py_strip_ends (s : pystr) :
  (forall c rest, py_strip s = c :: rest -> py_isspace c = false)
  /\ (forall c front, py_strip s = front ++ [c] -> py_isspace c = false).
Proof.
  unfold py_strip. split.
  - intros c rest Hs.
    destruct (py_lstrip_suffix (reverse (py_lstrip s))) as [k Hk].
    apply (f_equal reverse) in Hk.
    rewrite reverse_involutive, reverse_app, Hs in Hk.
    simpl in Hk. by apply py_lstrip_head in Hk.
  - intros c front Hs. apply (f_equal reverse) in Hs.
    rewrite reverse_involutive, reverse_snoc in Hs.
    by apply py_lstrip_head in Hs.
Qed.

Lemma normalise_clean (data : pystr) :
  (10%N ∉ normalise data)
  /\ (forall c rest, normalise data = c :: rest -> py_isspace c = false)
  /\ (forall c front, normalise data = front ++ [c] -> py_isspace c = false).
Proof.
  split; [|apply py_strip_ends].
  unfold normalise. intros Hin%py_strip_elem.
  unfold py_replace at 1 in Hin. rewrite lit_two_spaces, lit_space in Hin.
  apply py_replace_from_elem in Hin as [Hin|Hin].
  - revert Hin. unfold nl. by apply py_replace_char_gone.
  - apply list_elem_of_singleton in Hin. done.
Qed.


(** The pass over pairs of spaces, on text without spaces, on a run of
    spaces, and on their concatenation. *)
Lemma replace_pairs_skip (a rest : pystr) :
  Forall (fun c => c <> 32%N) a ->
  py_replace_from [32%N; 32%N] [32%N] 0 (a ++ rest)
  = a ++ py_replace_from [32%N; 32%N] [32%N] 0 rest.
Proof.
  induction 1 as [|c a Hc Ha IH]; [done|].
  cbn [app py_replace_from length]. case_bool_decide as Hpair.
  - cbn [take] in Hpair. by injection Hpair as -> _.
  - by rewrite IH.
Qed.

Lemma replace_pairs_run (k : nat) (b : pystr) :
  Forall (fun c => c <> 32%N) b ->
  py_replace_from [32%N; 32%N] [32%N] 0 (replicate k 32%N ++ b)
  = replicate (Nat.div2 (S k)) 32%N ++ b.
Proof.
  intros Hb.
  assert (py_replace_from [32%N; 32%N] [32%N] 0 b = b) as Hnone.
  { rewrite <- (app_nil_r b) at 1. rewrite replace_pairs_skip by done.
    by rewrite app_nil_r. }
  enough (forall n,
    py_replace_from [32%N; 32%N] [32%N] 0 (replicate n 32%N ++ b)
    = replicate (Nat.div2 (S n)) 32%N ++ b
    /\ py_replace_from [32%N; 32%N] [32%N] 0 (replicate (S n) 32%N ++ b)
       = replicate (Nat.div2 (S (S n))) 32%N ++ b) as Hboth
    by apply Hboth.
  induction n as [|n [IHn IHSn]].
  - split; [exact Hnone|].
    cbn [replicate app Nat.div2 py_replace_from length]. case_bool_decide as Hpair.
    + destruct Hb as [|c b Hc Hb]; [done|]. cbn [take app] in Hpair.
      by injection Hpair as ->.
    + by rewrite Hnone.
  - split; [exact IHSn|].
    change (replicate (S (S n)) 32%N ++ b)
      with (32%N :: 32%N :: (replicate n 32%N ++ b)).
    cbn [py_replace_from length Nat.sub].
    rewrite bool_decide_eq_true_2 by done.
    cbn [app]. rewrite IHn. reflexivity.
Qed.

Lemma py_replace_char_absent (s : pystr) (c c' : N) :
  Forall (fun x => x <> c) s -> py_replace s [c] [c'] = s.
Proof.
  unfold py_replace. induction 1 as [|x s Hx Hs IH]; [done|].
  cbn [py_replace_from length take Nat.sub].
  rewrite bool_decide_eq_false_2 by (intros [= ->]; done).
  by rewrite IH.
Qed.

Lemma py_lstrip_id (s : pystr) :
  (forall c rest, s = c :: rest -> py_isspace c = false) -> py_lstrip s = s.
Proof.
  destruct s as [|c rest]; [done|]. intros Hhead. simpl.
  by rewrite (Hhead c rest eq_refl).
Qed.

Lemma py_strip_id (s : pystr) :
  (forall c rest, s = c :: rest -> py_isspace c = false) ->
  (forall c front, s = front ++ [c] -> py_isspace c = false) ->
  py_strip s = s.
Proof.
  intros Hhead Hlast. unfold py_strip.
  rewrite (py_lstrip_id s Hhead), py_lstrip_id; [apply reverse_involutive|].
  intros c rest Hrev. apply (Hlast c (reverse rest)).
  apply (f_equal reverse) in Hrev.
  by rewrite reverse_involutive, reverse_cons in Hrev.
Qed.

(** Runs of spaces are not collapsed to one space: the single pass
    [.replace("  ", " ")] leaves half of a run, rounded up. Between two
    words without whitespace, [k] spaces become [(k + 1) / 2] spaces. *)
Theorem normalise_halves_runs (a b : pystr) (k : nat) :
  a <> [] -> b <> [] ->
  Forall (fun c => py_isspace c = false) a ->
  Forall (fun c => py_isspace c = false) b ->
  normalise (a ++ replicate k 32%N ++ b)
  = a ++ replicate (Nat.div2 (S k)) 32%N ++ b.
Proof.
  intros Ha Hb Hwa Hwb.
  assert (forall l : pystr, Forall (fun c => py_isspace c = false) l ->
            Forall (fun c => c <> 32%N) l /\ Forall (fun c => c <> 10%N) l)
    as Hplain.
  { intros l Hl. split; eapply Forall_impl; try exact Hl;
      intros c Hc ->; discriminate Hc. }
  destruct (Hplain a Hwa) as [Ha32 Ha10]. destruct (Hplain b Hwb) as [Hb32 Hb10].
  unfold normalise, nl. rewrite lit_space, lit_two_spaces.
  rewrite py_replace_char_absent.
  2:{ apply Forall_app. split; [done|]. apply Forall_app. split; [|done].
      apply Forall_replicate. done. }
  unfold py_replace. rewrite replace_pairs_skip, replace_pairs_run by done.
  apply py_strip_id.
  - intros c rest Hs. destruct a as [|c0 a']; [done|].
    injection Hs as <- _. by apply Forall_cons in Hwa as [? _].
  - intros c front Hs. destruct b as [|c0 b' _] using rev_ind; [done|].
    rewrite !app_assoc in Hs. apply app_inj_tail in Hs as [_ <-].
    apply Forall_app in Hwb as [_ Hlast].
    apply Forall_cons in Hlast as [Hc _]. exact Hc.
Qed.

Lemma normalise_halves_runs_witness :
  normalise (lit "Main" ++ replicate 4 32%N ++ lit "Street")
  = lit "Main" ++ replicate (Nat.div2 5) 32%N ++ lit "Street".
Proof.
  apply (normalise_halves_runs (lit "Main") (lit "Street") 4).
  - discriminate.
  - discriminate.
  - vm_compute. repeat constructor.
  - vm_compute. repeat constructor.
Defined.

(** The text of a Document holds no newline and neither starts nor ends with
    whitespace. *)
Theorem load_documents_content_clean (f : folder) (docs : list document)
    (d : document) :
  load_documents f = Ok docs -> d ∈ docs ->
  (10%N ∉ content d)
  /\ (forall c rest, content d = c :: rest -> py_isspace c = false)
  /\ (forall c front, content d = front ++ [c] -> py_isspace c = false).
Proof.
  intros Hrun Hd.
  destruct (loaded_document f docs d Hrun Hd) as (_ & data & _ & ->).
  apply normalise_clean.
Qed.

Lemma load_documents_content_clean_witness :
  let d := {| name := lit "town.txt";
              content := lit "Main Street has three potholes." |} in
  (10%N ∉ content d)
  /\ (forall c rest, content d = c :: rest -> py_isspace c = false)
  /\ (forall c front, content d = front ++ [c] -> py_isspace c = false).
Proof.
  intros d. apply (load_documents_content_clean (take 1 town_folder) [d] d).
  - vm_compute. reflexivity.
  - apply list_elem_of_here.
Defined.


(** ** Index construction: failure, repetition *)

Section IndexingMore.
Context {emb : Type}.
Variable encode : pystr -> emb.
Variable documents : folder.

(** Whatever happens in the loop over the documents, only the collection
    changes, and only by items added at its end. *)
Lemma index_documents_frame (fuel : nat) (docs : list document) (s : state emb) :
  exists added,
    state_of (for_each docs (fun doc =>
      bind (lift_fuel (chunk_text fuel (content doc) default_chunk_size default_overlap))
        (fun chunks =>
          for_each (enumerate chunks) (fun '(i, chunk) =>
            collection_add (index_entry encode doc i chunk)))) s)
    = with_collection s (collection s ++ added).
Proof.
  revert s. induction docs as [|d docs IH]; intros s.
  - exists []. rewrite app_nil_r. by destruct s.
  - change (for_each (d :: docs) ?body) with (bind (body d) (fun _ => for_each docs body)).
    destruct (chunk_text fuel (content d) default_chunk_size default_overlap)
      as [chunks|] eqn:Hchunks.
    + set (s1 := with_collection s
                   (collection s ++ imap (index_entry encode d) chunks)).
      destruct (IH s1) as [added Hadded].
      exists (imap (index_entry encode d) chunks ++ added).
      erewrite bind_ok; last first.
      { erewrite bind_ok; last (unfold lift_fuel, lift_result; by rewrite Hchunks).
        rewrite add_enumerated_run. reflexivity. }
      fold s1.
      destruct (for_each docs _ s1) as [[res st] tr] eqn:Hrest.
      unfold state_of in *. cbn [fst snd] in *. rewrite Hadded.
      subst s1. unfold with_collection. cbn [collection _index_started conversation_history].
      by rewrite <- app_assoc.
    + exists []. unfold bind, lift_fuel, lift_result. rewrite Hchunks.
      unfold state_of. cbn [fst snd]. rewrite app_nil_r. by destruct s.
Qed.

Lemma ensure_index_frame (fuel : nat) (s : state emb) :
  collection s = [] ->
  exists added,
    state_of (ensure_index encode documents fuel s) = with_collection s added.
Proof.
  intros Hempty. unfold ensure_index. unfold bind at 1, get_state. rewrite Hempty.
  change (len (map entry_id []) =? 0) with true. cbv iota.
  unfold bind at 1, print at 1, emit.
  unfold bind at 1, lift_result at 1.
  destruct (load_documents documents) as [docs|e|].
  - destruct (index_documents_frame fuel docs s) as [added Hadded].
    exists added. unfold bind at 1.
    destruct (for_each docs _ s) as [[res st] tr] eqn:Hrun.
    unfold state_of in Hadded. cbn [fst snd] in Hadded. subst st.
    rewrite Hempty. destruct res; reflexivity.
  - exists []. unfold state_of. cbn [fst snd]. destruct s; simpl in *; by subst.
  - exists []. unfold state_of. cbn [fst snd]. destruct s; simpl in *; by subst.
Qed.

(** One unreadable text file and nothing is indexed: when the collection is
    empty and some text file of the folder cannot be read, [ensure_index]
    raises and leaves the globals as they were. *)
Theorem ensure_index_unreadable_file (fuel : nat) (s : state emb) :
  collection s = [] ->
  ~ all_readable documents ->
  exists e,
    result_of (ensure_index encode documents fuel s) = Raise e
    /\ state_of (ensure_index encode documents fuel s) = s.
Proof.
  intros Hempty Hnot.
  destruct (load_documents_unreadable documents Hnot) as [e Hload].
  exists e.
  assert (exists tr, ensure_index encode documents fuel s = (Raise e, s, tr))
    as [tr ->]; [|done].
  eexists. unfold ensure_index. unfold bind at 1, get_state. rewrite Hempty.
  change (len (map entry_id []) =? 0) with true. cbv iota.
  unfold bind at 1, print at 1, emit.
  unfold bind at 1, lift_result at 1. rewrite Hload. reflexivity.
Qed.

(** Running [ensure_index] again after a run that returned changes nothing
    in the collection. *)
Theorem ensure_index_again (fuel : nat) (s : state emb) :
  result_of (ensure_index encode documents fuel s) = Ok tt ->
  let s1 := state_of (ensure_index encode documents fuel s) in
  result_of (ensure_index encode documents fuel s1) = Ok tt
  /\ collection (state_of (ensure_index encode documents fuel s1)) = collection s1.
Proof.
  intros Hok s1.
  destruct (decide (collection s = [])) as [Hempty|Hne].
  - destruct (ensure_index_frame fuel s Hempty) as [added Hadded].
    fold s1 in Hadded.
    destruct (decide (added = [])) as [->|Hadd].
    + assert (s1 = s) as Hs1.
      { rewrite Hadded. rewrite <- Hempty. apply with_collection_same. }
      rewrite Hs1. split; [done|]. fold s1. by rewrite Hs1.
    + rewrite (ensure_index_nonempty encode documents fuel s1); [done|].
      rewrite Hadded. done.
  - assert (s1 = s) as Hs1
      by (subst s1; by rewrite (ensure_index_nonempty encode documents fuel s Hne)).
    rewrite Hs1. by rewrite (ensure_index_nonempty encode documents fuel s Hne).
Qed.
End IndexingMore.

Lemma ensure_index_unreadable_file_witness :
  exists e,
    result_of (ensure_index no_embedding town_folder 31 fresh_process) = Raise e
    /\ state_of (ensure_index no_embedding town_folder 31 fresh_process)
       = fresh_process.
Proof.
  apply (ensure_index_unreadable_file no_embedding town_folder 31 fresh_process).
  - reflexivity.
  - intros Hall. apply Forall_cons in Hall as [_ Hall].
    apply Forall_cons in Hall as [Hlocked _].
    assert (is_txt (lit "locked.txt", ReadFails FileReadError) = true) as Htxt
      by (vm_compute; reflexivity).
    destruct (Hlocked Htxt) as [data Hdata]. discriminate Hdata.
Defined.

Lemma ensure_index_again_witness :
  let s1 := state_of (ensure_index no_embedding (take 1 town_folder) 31
                        fresh_process) in
  result_of (ensure_index no_embedding (take 1 town_folder) 31 s1) = Ok tt
  /\ collection (state_of (ensure_index no_embedding (take 1 town_folder) 31 s1))
     = collection s1.
Proof.
  apply (ensure_index_again no_embedding (take 1 town_folder) 31 fresh_process).
  vm_compute. reflexivity.
Defined.


(** ** Index construction: the ids *)

Lemma lit_uint (d : Decimal.uint) :
  lit (NilEmpty.string_of_uint d) = uint_codes d.
Proof.
  unfold lit. induction d as [|d IH|d IH|d IH|d IH|d IH|d IH|d IH|d IH|d IH|d IH];
    [done|..]; cbn [NilEmpty.string_of_uint bytes_of_string uint_codes];
    rewrite <- IH; reflexivity.
Qed.

Lemma uint_codes_inj (d d' : Decimal.uint) :
  uint_codes d = uint_codes d' -> d = d'.
Proof.
  revert d'. induction d; intros d' Heq; destruct d'; simpl in Heq;
    try discriminate Heq; try reflexivity;
    injection Heq as Heq; f_equal; by apply IHd.
Qed.

Lemma uint_codes_digits (d : Decimal.uint) :
  Forall (fun c => c <> 95%N) (uint_codes d).
Proof. induction d; simpl; constructor; done. Qed.

Lemma py_str_inj (i j : nat) : py_str i = py_str j -> i = j.
Proof.
  unfold py_str. rewrite !lit_uint. intros Heq%uint_codes_inj.
  rewrite <- (DecimalNat.Unsigned.of_to i), <- (DecimalNat.Unsigned.of_to j).
  by rewrite Heq.
Qed.

Lemma py_str_no_underscore (i : nat) : Forall (fun c => c <> 95%N) (py_str i).
Proof. unfold py_str. rewrite lit_uint. apply uint_codes_digits. Qed.

Lemma first_separator (c : N) (x x' y y' : pystr) :
  Forall (fun a => a <> c) x -> Forall (fun a => a <> c) x' ->
  x ++ c :: y = x' ++ c :: y' -> x = x' /\ y = y'.
Proof.
  intros Hx. revert x'. induction Hx as [|a x Ha Hx IH]; intros x' Hx' Heq.
  - destruct Hx' as [|a' x' Ha' Hx']; simpl in Heq.
    + by injection Heq as ->.
    + injection Heq as <- _. done.
  - destruct Hx' as [|a' x' Ha' Hx']; simpl in Heq.
    + injection Heq as -> _. done.
    + injection Heq as <- Heq. destruct (IH _ Hx' Heq) as [-> ->]. done.
Qed.

(** An id falls apart in one way only into a name and an index. *)
Lemma index_id_inj (n n' : pystr) (i i' : nat) :
  n ++ lit "_" ++ py_str i = n' ++ lit "_" ++ py_str i' -> n = n' /\ i = i'.
Proof.
  change (lit "_") with [95%N]. intros Heq.
  apply (f_equal reverse) in Heq.
  rewrite !reverse_app in Heq. change (reverse [95%N]) with [95%N] in Heq.
  rewrite <- !app_assoc in Heq. cbn [app] in Heq.
  apply first_separator in Heq as [Hi Hn].
  - apply (f_equal reverse) in Hi, Hn. rewrite !reverse_involutive in Hi, Hn.
    split; [done | by apply py_str_inj].
  - apply Forall_reverse, py_str_no_underscore.
  - apply Forall_reverse, py_str_no_underscore.
Qed.

Section Ids.
Context {emb : Type}.
Variable encode : pystr -> emb.
Variable documents : folder.

Lemma index_documents_exact (fuel : nat) (docs : list document) (s : state emb) :
  Forall (fun d => (length (content d) <= fuel)%nat) docs ->
  exists chunkss : list (list pystr),
    for_each docs (fun doc =>
      bind (lift_fuel (chunk_text fuel (content doc) default_chunk_size default_overlap))
        (fun chunks =>
          for_each (enumerate chunks) (fun '(i, chunk) =>
            collection_add (index_entry encode doc i chunk)))) s
    = (Ok tt,
       with_collection s
         (collection s
          ++ concat (zip_with (fun d cs => imap (index_entry encode d) cs)
                       docs chunkss)),
       []).
Proof.
  revert s. induction docs as [|d docs IH]; intros s Hfuel.
  - exists []. simpl. unfold ret. by rewrite app_nil_r, with_collection_same.
  - apply Forall_cons in Hfuel as [Hd Hfuel].
    destruct (chunk_text_default_returns fuel (content d) Hd) as [chunks Hchunks].
    set (s1 := with_collection s
                 (collection s ++ imap (index_entry encode d) chunks)).
    destruct (IH s1 Hfuel) as (chunkss & Hrun).
    exists (chunks :: chunkss).
    change (for_each (d :: docs) ?body) with (bind (body d) (fun _ => for_each docs body)).
    erewrite bind_ok; last first.
    { erewrite bind_ok; last (unfold lift_fuel, lift_result; by rewrite Hchunks).
      rewrite add_enumerated_run. reflexivity. }
    fold s1. rewrite Hrun. subst s1. simpl. by rewrite <- app_assoc.
Qed.

Lemma index_ids_elem (docs : list document) (chunkss : list (list pystr)) (x : pystr) :
  x ∈ map entry_id
        (concat (zip_with (fun d cs => imap (index_entry encode d) cs) docs chunkss)) ->
  exists d (i : nat), d ∈ docs /\ x = name d ++ lit "_" ++ py_str i.
Proof.
  intros Hx. apply list_elem_of_fmap in Hx as (e & -> & He).
  apply list_elem_of_In, in_concat in He as (items & Hitems & He).
  apply list_elem_of_In in Hitems, He.
  apply elem_of_zip_with in Hitems as (d & cs & -> & Hd & _).
  apply elem_of_lookup_imap in He as (i & c & -> & _).
  by exists d, i.
Qed.

Lemma index_ids_distinct (docs : list document) (chunkss : list (list pystr)) :
  NoDup (map name docs) ->
  NoDup (map entry_id
           (concat (zip_with (fun d cs => imap (index_entry encode d) cs)
                      docs chunkss))).
Proof.
  revert chunkss. induction docs as [|d docs IH]; intros chunkss Hnames;
    [constructor|].
  destruct chunkss as [|cs chunkss]; [constructor|].
  apply NoDup_cons in Hnames as [Hfresh Hnames].
  cbn [zip_with concat]. rewrite map_app. apply NoDup_app. split; [|split].
  - apply NoDup_alt. intros i j x Hi Hj.
    rewrite list_lookup_fmap, list_lookup_imap in Hi, Hj.
    destruct (cs !! i) as [ci|]; [|done]. destruct (cs !! j) as [cj|]; [|done].
    simpl in Hi, Hj. injection Hi as <-. injection Hj as Hj.
    by apply index_id_inj in Hj as [_ ->].
  - intros x Hx Hx'.
    apply list_elem_of_fmap in Hx as (e & -> & He).
    apply elem_of_lookup_imap in He as (i & c & -> & _).
    apply index_ids_elem in Hx' as (d' & j & Hd' & Heq).
    apply index_id_inj in Heq as [Hname _].
    apply Hfresh. rewrite Hname. apply list_elem_of_fmap. by exists d'.
  - by apply IH.
Qed.

Lemma readable_documents_names (f : folder) :
  NoDup (map fst f) -> NoDup (map name (readable_documents f)).
Proof.
  induction f as [|[filename r] f IH]; [constructor|].
  intros [Hfresh Hnames]%NoDup_cons. unfold readable_documents.
  cbn [omap list_omap]. fold (readable_documents f).
  destruct (document_of (filename, r)) as [d|] eqn:Hd; [|by apply IH].
  cbn [map]. apply NoDup_cons. split; [|by apply IH].
  unfold document_of in Hd. simpl in Hd.
  destruct (is_txt (filename, r)); [|done]. destruct r; [|done].
  injection Hd as <-. simpl. intros Hin.
  apply list_elem_of_fmap in Hin as (d' & Hname & Hd').
  unfold readable_documents in Hd'.
  apply list_elem_of_omap in Hd' as ([filename' r'] & Hin' & Hdoc).
  unfold document_of in Hdoc. simpl in Hdoc.
  destruct (is_txt (filename', r')); [|done]. destruct r'; [|done].
  injection Hdoc as <-. simpl in Hname. subst filename'.
  apply Hfresh. apply list_elem_of_fmap. by exists (filename, ReadOk data0).
Qed.

(** The ids stored by one run of [ensure_index] are pairwise distinct, the
    names of a listing being distinct. *)
Theorem ensure_index_ids_distinct (fuel : nat) (s : state emb)
    (docs : list document) :
  collection s = [] ->
  NoDup (map fst documents) ->
  load_documents documents = Ok docs ->
  Forall (fun d => (length (content d) <= fuel)%nat) docs ->
  NoDup (map entry_id
           (collection (state_of (ensure_index encode documents fuel s)))).
Proof.
  intros Hempty Hlisting Hload Hfuel.
  destruct (index_documents_exact fuel docs s Hfuel) as (chunkss & Hrun).
  assert (exists tr,
            ensure_index encode documents fuel s
            = (Ok tt,
               with_collection s
                 (concat (zip_with (fun d cs => imap (index_entry encode d) cs)
                            docs chunkss)),
               tr)) as [tr ->].
  { eexists. unfold ensure_index. unfold bind at 1, get_state. rewrite Hempty.
    change (len (map entry_id []) =? 0) with true. cbv iota.
    unfold bind at 1, print at 1, emit.
    unfold bind at 1, lift_result at 1. rewrite Hload.
    unfold bind at 1. rewrite Hrun. rewrite Hempty. reflexivity. }
  unfold state_of. cbn [fst snd with_collection collection].
  apply index_ids_distinct.
  destruct (load_loop_ok documents [] docs Hload) as [_ ->]. cbn [app].
  by apply readable_documents_names.
Qed.
End Ids.

Lemma ensure_index_ids_distinct_witness :
  NoDup (map entry_id
           (collection (state_of (ensure_index no_embedding open_folder 31
                                    fresh_process)))).
Proof.
  apply (ensure_index_ids_distinct no_embedding open_folder 31 fresh_process
           [{| name := lit "town.txt";
               content := lit "Main Street has three potholes." |};
            {| name := lit "park.txt"; content := lit "The park opens at nine." |}]).
  - reflexivity.
  - apply (bool_decide_unpack (NoDup (map fst open_folder))).
    vm_compute. reflexivity.
  - vm_compute. reflexivity.
  - repeat constructor; vm_compute; lia.
Defined.

(** ** Answering: what a call reads, what it returns, what the endpoint adds *)


Section AnsweringMore.
Context {emb : Type}.
Variable encode : pystr -> emb.
Variable collection_query : list (entry emb) -> emb -> Z -> option (list (list pystr)).
Variable requests_post : pystr -> generate_request -> Z -> post_outcome.
Variable env_OLLAMA_HOST : option pystr.

Local Abbreviation ask := (ask_ollama encode collection_query requests_post env_OLLAMA_HOST).
Local Abbreviation api := (ask_api encode collection_query requests_post env_OLLAMA_HOST).

(** A run is decided by the question, by what the query returns on the
    collection and by the last five turns. *)
Lemma ask_ollama_unfolded question (s : state emb) :
  let url := OLLAMA_HOST env_OLLAMA_HOST ++ lit "/api/generate" in
  let body :=
    request_of
      match collection_query (collection s) (encode question) 6 with
      | Some (first :: _) => first
      | _ => []
      end
      (py_slice (conversation_history s) (Some (-5)) None) question in
  ask question s =
  match requests_post url body 120 with
  | PostRaises e => (Raise e, s, [HttpPost url body 120])
  | PostResponds r =>
    if negb (status_code r =? 200)
    then (Ok api_error_message, s,
          [HttpPost url body 120; Print [lit "⚠️ Ollama API hiba:"; text r]])
    else match json r with
         | None => (Raise JSONDecodeError, s, [HttpPost url body 120])
         | Some data =>
           match generated_text data with
           | None => (Raise AttributeError, s, [HttpPost url body 120])
           | Some generated =>
             (Ok (answer_of generated),
              with_history s
                (conversation_history s
                 ++ [{| user := question; bot := answer_of generated |}]),
              [HttpPost url body 120])
           end
         end
  end.
Proof.
  cbv [ask_ollama bind search_relevant_chunks get_state ret post emit
       lift_result response_json value_get value_strip print
       conversation_history_append generated_text answer_of request_of].
  destruct (requests_post _ _ _) as [e|r]; [reflexivity|].
  destruct (negb (status_code r =? 200)); [reflexivity|].
  destruct (json r) as [data|]; [|reflexivity].
  destruct data as [| | | | |items|fields]; try reflexivity.
  destruct (fields !! lit "response") as [value|]; [|reflexivity].
  destruct value; reflexivity.
Qed.



(** A call never touches the flag or the collection, and never removes or
    alters a recorded turn: the history afterwards is the history before,
    followed by at most one turn, which holds the question. *)
Theorem ask_ollama_append_only question (s : state emb) :
  _index_started (state_of (ask question s)) = _index_started s
  /\ collection (state_of (ask question s)) = collection s
  /\ (conversation_history (state_of (ask question s)) = conversation_history s
      \/ exists answer,
          result_of (ask question s) = Ok answer
          /\ conversation_history (state_of (ask question s))
             = conversation_history s ++ [{| user := question; bot := answer |}]).
Proof.
  rewrite ask_ollama_unfolded.
  destruct (requests_post _ _ _) as [e|r]; [by repeat split; left|].
  destruct (negb (status_code r =? 200)); [by repeat split; left|].
  destruct (json r) as [data|]; [|by repeat split; left].
  destruct (generated_text data) as [generated|]; [|by repeat split; left].
  split; [done|]. split; [done|]. right. by exists (answer_of generated).
Qed.

Lemma api_error_message_nonempty : api_error_message <> [].
Proof. intros H. apply (f_equal length) in H. vm_compute in H. discriminate. Qed.

Lemma empty_answer_message_nonempty : empty_answer_message <> [].
Proof. intros H. apply (f_equal length) in H. vm_compute in H. discriminate. Qed.

(** An answer that is returned is never the empty string. *)
Theorem ask_ollama_answer_nonempty question (s : state emb) (answer : pystr) :
  result_of (ask question s) = Ok answer -> answer <> [].
Proof.
  rewrite ask_ollama_unfolded.
  destruct (requests_post _ _ _) as [e|r]; [done|].
  destruct (negb (status_code r =? 200)).
  { unfold result_of. cbn [fst]. intros H. injection H as <-.
    apply api_error_message_nonempty. }
  destruct (json r) as [data|]; [|done].
  destruct (generated_text data) as [generated|]; [|done].
  unfold result_of. cbn [fst]. intros H. injection H as <-.
  unfold answer_of, py_or.
  destruct (py_strip generated); [apply empty_answer_message_nonempty | done].
Qed.

(** Turns older than the last five do not reach the backend: with five or
    more turns recorded, any older history in front of them gives the same
    request, the same result and the same events. *)
Theorem ask_ollama_history_window question (s : state emb) (older : list turn) :
  (5 <= length (conversation_history s))%nat ->
  let s' := with_history s (older ++ conversation_history s) in
  result_of (ask question s') = result_of (ask question s)
  /\ trace_of (ask question s') = trace_of (ask question s).
Proof.
  intros Hlen s'.
  rewrite !ask_ollama_unfolded.
  assert (py_slice (conversation_history s') (Some (-5)) None
          = py_slice (conversation_history s) (Some (-5)) None) as ->.
  { change (Some (-5)) with (Some (- Z.of_nat 5)).
    rewrite !py_slice_last by lia. subst s'. unfold with_history.
    cbn [conversation_history]. rewrite length_app.
    rewrite drop_app_ge by lia. f_equal. lia. }
  change (collection s') with (collection s).
  destruct (requests_post _ _ _) as [e|r]; [done|].
  destruct (negb (status_code r =? 200)); [done|].
  destruct (json r) as [data|]; [|done].
  destruct (generated_text data); done.
Qed.



End AnsweringMore.

Lemma ask_ollama_answer_nonempty_witness : lit "Main Street." <> [].
Proof.
  apply (ask_ollama_answer_nonempty no_embedding two_passages
           (answering street_answer) None (lit "What street has potholes?")
           chatted).
  vm_compute. reflexivity.
Defined.

Lemma ask_ollama_history_window_witness :
  let s' :=
    with_history chatted
      ([{| user := lit "Q0"; bot := lit "A0" |}] ++ conversation_history chatted) in
  result_of (ask_ollama no_embedding two_passages (answering street_answer) None
               (lit "What street has potholes?") s')
  = result_of (ask_ollama no_embedding two_passages (answering street_answer) None
                 (lit "What street has potholes?") chatted)
  /\ trace_of (ask_ollama no_embedding two_passages (answering street_answer) None
                 (lit "What street has potholes?") s')
     = trace_of (ask_ollama no_embedding two_passages (answering street_answer) None
                   (lit "What street has potholes?") chatted).
Proof.
  apply (ask_ollama_history_window no_embedding two_passages
           (answering street_answer) None (lit "What street has potholes?")
           chatted [{| user := lit "Q0"; bot := lit "A0" |}]).
  vm_compute. lia.
Defined.

